(** * The backend forwarder of [frontend/app/api/backend/[...path]/route.ts]

    The route module exports two handlers, [GET] and [POST].  Each builds an
    upstream URL from the module constant [BACKEND], the captured path
    segments and the raw query string, calls [fetch] once, reads the upstream
    body with [text()] and answers with [new Response(...)].

    The handlers are embedded in a small monad that threads the log of
    [fetch] calls and propagates rejections.  The parts of the web platform
    the handlers call ([Headers.get], the [||] operator, [Body.text()], the
    body extraction of a string, the [Response] constructor) are embedded
    with the behaviour the Fetch and Encoding standards give them. *)

From Stdlib Require Import NArith Strings.Byte Ascii String List Lia.
From stdpp Require Import base option list strings gmap.
From Stdlib Require PrimFloat.

Local Open Scope string_scope.
Local Open Scope N_scope.

(** ** JavaScript values used by the route *)

Module Js.

(** [a || d] where [a] is [string | null] (or [string | undefined]) and
    [d] a string: [null], [undefined] and the empty string are falsy. *)
Definition or_else (a : option string) (d : string) : string :=
  match a with
  | Some EmptyString => d
  | Some s => s
  | None => d
  end.

(** [Array.prototype.join] on an array of strings. *)
Fixpoint join (sep : string) (xs : list string) : string :=
  match xs with
  | [] => ""
  | [x] => x
  | x :: rest => x +:+ sep +:+ join sep rest
  end.

(** The errors a handler can reject with. *)
Inductive Error : Type :=
| TypeError (msg : string)
| RangeError (msg : string).

End Js.

(** ** Text and bytes: the Encoding standard's UTF-8 codec

    A body is a sequence of bytes; [text()] decodes it and a string handed
    to [fetch] or [new Response] as a body is encoded again.  A decoded
    text is a sequence of scalar values. *)

Module Utf8.

Definition byte_of_N (n : N) : byte :=
  match Byte.of_N n with
  | Some b => b
  | None => "000"%byte
  end.

Definition is_scalar (c : N) : Prop :=
  c < 0xD800 ∨ (0xE000 <= c ∧ c <= 0x10FFFF).

Definition replacement : N := 0xFFFD.
Definition bom : N := 0xFEFF.

(** The encoder: one code point to one to four bytes. *)
Definition encode_point (c : N) : list N :=
  if c <=? 0x7F then [c]
  else if c <=? 0x7FF then
    [N.shiftr c 6 + 0xC0;
     N.lor 0x80 (N.land c 0x3F)]
  else if c <=? 0xFFFF then
    [N.shiftr c 12 + 0xE0;
     N.lor 0x80 (N.land (N.shiftr c 6) 0x3F);
     N.lor 0x80 (N.land c 0x3F)]
  else
    [N.shiftr c 18 + 0xF0;
     N.lor 0x80 (N.land (N.shiftr c 12) 0x3F);
     N.lor 0x80 (N.land (N.shiftr c 6) 0x3F);
     N.lor 0x80 (N.land c 0x3F)].

Definition encode (t : list N) : list byte :=
  map byte_of_N (concat (map encode_point t)).

(** The decoder's state: the code point being assembled, the number of
    continuation bytes still needed, and the bounds for the next byte. *)
Record state : Type := State {
  code_point : N;
  bytes_needed : N;
  lower : N;
  upper : N
}.

Definition start : state := State 0 0 0x80 0xBF.

(** A byte read when no continuation byte is needed. *)
Definition lead (b : N) : list N * state :=
  if b <=? 0x7F then ([b], start)
  else if (0xC2 <=? b) && (b <=? 0xDF) then
    ([], State (N.land b 0x1F) 1 0x80 0xBF)
  else if (0xE0 <=? b) && (b <=? 0xEF) then
    ([], State (N.land b 0xF) 2
               (if b =? 0xE0 then 0xA0 else 0x80)
               (if b =? 0xED then 0x9F else 0xBF))
  else if (0xF0 <=? b) && (b <=? 0xF4) then
    ([], State (N.land b 0x7) 3
               (if b =? 0xF0 then 0x90 else 0x80)
               (if b =? 0xF4 then 0x8F else 0xBF))
  else ([replacement], start).

(** One byte: a byte outside the bounds ends the sequence with U+FFFD and
    is read again as a lead byte. *)
Definition handle (s : state) (b : N) : list N * state :=
  if bytes_needed s =? 0 then lead b
  else if (lower s <=? b) && (b <=? upper s) then
    let c := N.lor (N.shiftl (code_point s) 6) (N.land b 0x3F) in
    if bytes_needed s =? 1 then ([c], start)
    else ([], State c (bytes_needed s - 1) 0x80 0xBF)
  else
    let '(out, s') := lead b in (replacement :: out, s').

Fixpoint process (s : state) (bs : list N) : list N :=
  match bs with
  | [] => if bytes_needed s =? 0 then [] else [replacement]
  | b :: rest => let '(out, s') := handle s b in (out ++ process s' rest)%list
  end.

(** "UTF-8 decode": a leading byte order mark is dropped. *)
Definition strip_bom (bs : list N) : list N :=
  match bs with
  | b0 :: b1 :: b2 :: rest =>
      if (b0 =? 0xEF) && (b1 =? 0xBB) && (b2 =? 0xBF) then rest else bs
  | _ => bs
  end.

Definition decode (bs : list byte) : list N :=
  process start (strip_bom (map Byte.to_N bs)).

End Utf8.

(** ** The Fetch API surface the route uses *)

Module Headers.

(** A header list, in order, as (name, value) pairs. *)
Abbreviation t := (list (string * string)).

Definition lower_ascii (c : ascii) : ascii :=
  let n := N_of_ascii c in
  if (65 <=? n) && (n <=? 90) then ascii_of_N (n + 32) else c.

Fixpoint lowercase (s : string) : string :=
  match s with
  | EmptyString => EmptyString
  | String c rest => String (lower_ascii c) (lowercase rest)
  end.

(** Header names match byte-case-insensitively. *)
Definition same_name (a b : string) : bool :=
  String.eqb (lowercase a) (lowercase b).

Definition values_of (h : t) (name : string) : list string :=
  map snd (filter (λ nv, same_name (fst nv) name = true) h).

(** [headers.get(name)]: [null] when no header has that name, else the
    values of the headers with that name, joined by comma and space. *)
Definition get (h : t) (name : string) : option string :=
  match values_of h name with
  | [] => None
  | vs => Some (Js.join ", " vs)
  end.

Definition has (h : t) (name : string) : bool :=
  match values_of h name with
  | [] => false
  | _ => true
  end.

(** Extracting a body from a string gives it the type
    [text/plain;charset=UTF-8]; the type becomes a [Content-Type] header
    only when the header list has none. *)
Definition with_text_type (h : t) : t :=
  if has h "Content-Type" then h
  else (h ++ [("content-type", "text/plain;charset=UTF-8")])%list.

End Headers.

(** A response: what [fetch] resolves to and what [new Response] builds. *)
Record Response : Type := {
  status : N;
  headers : Headers.t;
  body_bytes : list byte
}.

(** The request a call of [fetch] sends. *)
Record Request : Type := {
  url : string;
  method : string;
  request_headers : Headers.t;
  request_body : option (list byte)
}.

(** The [init] argument of [fetch], with the members the route sets. *)
Record RequestInit : Type := {
  init_method : string;
  init_headers : Headers.t;
  init_body : list N
}.

(** The [init] argument of [new Response], with the members the route sets. *)
Record ResponseInit : Type := {
  init_status : N;
  init_response_headers : Headers.t
}.

(** The upstream as the route sees it: a request either fails or is
    answered.  A failure while the body is received is a failure too. *)
Definition Network : Type := Request → Js.Error + Response.

(** ** Asynchronous computations

    A computation runs against the network, extends the log of requests sent
    and either rejects or resolves. *)

Module Async.

Definition t (A : Type) : Type :=
  Network → list Request → list Request * (Js.Error + A).

Definition resolve {A} (a : A) : t A := λ _ log, (log, inr a).

Definition reject {A} (e : Js.Error) : t A := λ _ log, (log, inl e).

(** [await]: a rejection skips the rest of the function. *)
Definition await {A B} (m : t A) (k : A → t B) : t B :=
  λ net log,
    match m net log with
    | (log', inl e) => (log', inl e)
    | (log', inr a) => k a net log'
    end.

(** Settling a synchronous result that may have thrown. *)
Definition settle {A} (r : Js.Error + A) : t A := λ _ log, (log, r).

(** One call of a handler, from an empty log. *)
Definition run {A} (m : t A) (net : Network) : list Request * (Js.Error + A) :=
  m net [].

End Async.

Notation "'const' x ':=' 'await' m ; k" := (Async.await m (λ x, k))
  (at level 10, x name, m at level 200, k at level 200, only parsing).

(** [fetch(url)] and [fetch(url, init)].  Without [init] the request is a
    GET with no header of the caller's and no body. *)
Definition fetch (u : string) (init : option RequestInit) : Async.t Response :=
  λ net log,
    let rq :=
      match init with
      | None =>
          {| url := u; method := "GET"; request_headers := [];
             request_body := None |}
      | Some i =>
          {| url := u; method := init_method i;
             request_headers := Headers.with_text_type (init_headers i);
             request_body := Some (Utf8.encode (init_body i)) |}
      end in
    ((log ++ [rq])%list, net rq).

(** [body.text()]: the bytes, UTF-8 decoded. *)
Definition text (bs : list byte) : Async.t (list N) :=
  Async.resolve (Utf8.decode bs).

(** Statuses whose response has no body. *)
Definition null_body_status (s : N) : bool :=
  (s =? 101) || (s =? 103) || (s =? 204) || (s =? 205) || (s =? 304).

(** [new Response(body, init)] with a string body: a status outside
    200..599 throws a [RangeError], a null body status throws a
    [TypeError] since the body is not null. *)
Definition new_Response (b : list N) (init : ResponseInit) : Js.Error + Response :=
  if (init_status init <? 200) || (599 <? init_status init) then
    inl (Js.RangeError "init[status] must be in the range of 200 to 599, inclusive.")
  else if null_body_status (init_status init) then
    inl (Js.TypeError "Response constructor: Invalid response status code")
  else
    inr {| status := init_status init;
           headers := Headers.with_text_type (init_response_headers init);
           body_bytes := Utf8.encode b |}.

(** ** The route module *)

Module Route.

(** [req.nextUrl]: the route reads its [search], the raw query string
    (empty, or starting with a question mark). *)
Record NextURL : Type := { search : string }.

(** The inbound request: the route reads [nextUrl.search], [headers] and
    the body. *)
Record NextRequest : Type := {
  nextUrl : NextURL;
  inbound_headers : Headers.t;
  inbound_body : list byte
}.

(** The second argument of a handler: [{ params: { path: string[] } }]. *)
Record Params : Type := { path : list string }.
Record Context : Type := { params : Params }.

(** The module scope: the constants bound when the module is evaluated. *)
Record Scope : Type := { BACKEND : string }.

(** Evaluating the module against [process.env]:
    [const BACKEND = process.env.NEXT_PUBLIC_BACKEND_URL || 'http://localhost:8000']. *)
Definition evaluate (env : gmap string string) : Scope :=
  {| BACKEND :=
       Js.or_else (env !! "NEXT_PUBLIC_BACKEND_URL") "http://localhost:8000" |}.

(** The template literal both handlers start with. *)
Definition target (sc : Scope) (req : NextRequest) (ctx : Context) : string :=
  BACKEND sc +:+ "/" +:+ Js.join "/" (path (params ctx)) +:+ search (nextUrl req).

(** The object literal both handlers answer with. *)
Definition relayed (r : Response) : ResponseInit :=
  {| init_status := status r;
     init_response_headers :=
       [("Content-Type",
         Js.or_else (Headers.get (headers r) "Content-Type") "application/json")] |}.

(** A handler, as the module exports it. *)
Definition Handler : Type := Scope → NextRequest → Context → Async.t Response.

Definition GET (sc : Scope) (req : NextRequest) (ctx : Context)
  : Async.t Response :=
  let url := target sc req ctx in
  const r := await fetch url None;
  const text := await text (body_bytes r);
  Async.settle (new_Response text (relayed r)).

Definition POST (sc : Scope) (req : NextRequest) (ctx : Context)
  : Async.t Response :=
  let url := target sc req ctx in
  const body := await text (inbound_body req);
  const r := await fetch url (Some
    {| init_method := "POST";
       init_headers :=
         [("Content-Type",
           Js.or_else (Headers.get (inbound_headers req) "Content-Type")
                      "application/json")];
       init_body := body |});
  const text := await text (body_bytes r);
  Async.settle (new_Response text (relayed r)).

End Route.

(** ** The server process

    The module is evaluated once, when the server starts; afterwards the
    process takes inbound requests, and anything in the process may change
    [process.env].  The framework calls the export named after the method of
    the inbound request; a method with no export gets no handler.

    The handlers are asynchronous: a call of a handler is in flight until
    what it awaits has settled, and the process takes other events
    meanwhile.  [Inbound] starts a call, with the module scope it closes
    over; [Settle i net] lets the [i]-th call in flight run to its end,
    against the upstream as it answers that call.  The calls in flight share
    nothing but the module scope.  The process keeps, for each call that has
    ended, what it sent and what it settled with; no order among the
    upstream requests of different calls is recorded. *)

Module Server.

Inductive Event : Type :=
| SetEnv (name value : string)
| DeleteEnv (name : string)
| Inbound (method : string) (req : Route.NextRequest) (ctx : Route.Context)
| Settle (i : nat) (net : Network).

Record Process : Type := {
  env : gmap string string;
  scope : Route.Scope;
  in_flight : list (Async.t Response);
  settled : list (list Request * (Js.Error + Response))
}.

Definition boot (env0 : gmap string string) : Process :=
  {| env := env0; scope := Route.evaluate env0;
     in_flight := []; settled := [] |}.

Definition dispatch (method : string) : option Route.Handler :=
  if String.eqb method "GET" then Some Route.GET
  else if String.eqb method "POST" then Some Route.POST
  else None.

Definition step (p : Process) (ev : Event) : Process :=
  match ev with
  | SetEnv name value =>
      {| env := <[name := value]> (env p); scope := scope p;
         in_flight := in_flight p; settled := settled p |}
  | DeleteEnv name =>
      {| env := delete name (env p); scope := scope p;
         in_flight := in_flight p; settled := settled p |}
  | Inbound method req ctx =>
      match dispatch method with
      | Some handler =>
          {| env := env p; scope := scope p;
             in_flight := (in_flight p ++ [handler (scope p) req ctx])%list;
             settled := settled p |}
      | None => p
      end
  | Settle i net =>
      match in_flight p !! i with
      | Some call =>
          {| env := env p; scope := scope p;
             in_flight := delete i (in_flight p);
             settled := (settled p ++ [Async.run call net])%list |}
      | None => p
      end
  end.

Definition serve (p : Process) (evs : list Event) : Process :=
  foldl step p evs.

End Server.

(** ** The decoder's pending sequence

    While continuation bytes are still needed, the code points the decoder
    can still arrive at form an interval: [pending_low] to [pending_high]. *)

Definition pending_span (k : N) : N :=
  if k =? 1 then 1 else if k =? 2 then 64 else 4096.

Definition pending_low (s : Utf8.state) : N :=
  (Utf8.code_point s * 64 + (Utf8.lower s - 0x80))
  * pending_span (Utf8.bytes_needed s).

Definition pending_high (s : Utf8.state) : N :=
  (Utf8.code_point s * 64 + (Utf8.upper s - 0x80))
  * pending_span (Utf8.bytes_needed s)
  + (pending_span (Utf8.bytes_needed s) - 1).

(** A state is sound when nothing is pending, or when every code point the
    pending sequence can still arrive at is a scalar value. *)
Definition pending_sound (s : Utf8.state) : Prop :=
  Utf8.bytes_needed s = 0
  ∨ (1 <= Utf8.bytes_needed s ∧ Utf8.bytes_needed s <= 3
     ∧ 0x80 <= Utf8.lower s ∧ Utf8.upper s <= 0xBF
     ∧ (pending_high s < 0xD800
        ∨ (0xE000 <= pending_low s ∧ pending_high s <= 0x10FFFF))).

(** * The pages that call the route

    The pages run in the browser.  Their event handlers are embedded in a
    monad that threads the state of the component, logs the calls of
    [fetch] and propagates exceptions, with [try], [catch] and [finally]. *)

Module Page.

(** A thrown value: the name of its constructor and its message. *)
Inductive Exception : Type := Thrown (name message : string).

(** The values the handlers pass around: what [response.json()] resolves
    to, what a state variable holds. *)
#[warnings="-register-all"]
Inductive Value : Type :=
| Undefined
| Null
| Bool (b : bool)
| Number (x : PrimFloat.float)
| Str (s : string)
| Arr (items : list Value)
| Obj (fields : list (string * Value)).

(** What [!v], [v && w], [v || w] and [if (v)] test. *)
Definition truthy (v : Value) : bool :=
  match v with
  | Undefined | Null => false
  | Bool b => b
  | Number x => negb (PrimFloat.eqb x PrimFloat.zero || PrimFloat.is_nan x)
  | Str s => negb (String.eqb s "")
  | Arr _ | Obj _ => true
  end.

(** The own property [name] of an object given by its fields. *)
Fixpoint field (name : string) (fields : list (string * Value)) : Value :=
  match fields with
  | [] => Undefined
  | (k, v) :: rest => if String.eqb k name then v else field name rest
  end.

(** [v.name], for the names the pages read ([session_id], [reply], [token],
    [user], [detail]): none of them is defined by a prototype, so only an
    object can have one, and reading it off [null] or [undefined] throws. *)
Definition property (v : Value) (name : string) : Exception + Value :=
  match v with
  | Undefined | Null =>
      inl (Thrown "TypeError" ("Cannot read properties of null or undefined, reading " +:+ name))
  | Obj fields => inr (field name fields)
  | _ => inr Undefined
  end.

(** A call of [fetch]: the URL and the members of [init] the pages set. *)
Record Call : Type := {
  href : string;
  verb : string;
  call_headers : list (string * string);
  payload : option string
}.

(** What [fetch] resolves to: the status, and what [json()] and [text()]
    settle with. *)
Record Reply : Type := {
  code : N;
  json : Exception + Value;
  body_text : Exception + string
}.

(** [response.ok]. *)
Definition ok (r : Reply) : bool := (200 <=? code r) && (code r <=? 299).

(** The server as the browser sees it: given the calls made so far, the
    last one being the current one, [fetch] rejects or resolves. *)
Definition Browser : Type := list Call → Exception + Reply.

(** A handler over a component state [S]. *)
Definition Eff (S A : Type) : Type :=
  Browser → S → list Call → S * list Call * (Exception + A).

Definition pure {S A} (a : A) : Eff S A := λ _ s log, (s, log, inr a).

Definition throw {S A} (e : Exception) : Eff S A := λ _ s log, (s, log, inl e).

Definition bind {S A B} (m : Eff S A) (k : A → Eff S B) : Eff S B :=
  λ b s log,
    match m b s log with
    | (s', log', inl e) => (s', log', inl e)
    | (s', log', inr a) => k a b s' log'
    end.

(** A synchronous result that may have thrown. *)
Definition lift {S A} (r : Exception + A) : Eff S A := λ _ s log, (s, log, r).

(** [try { m } catch (e) { h e }]. *)
Definition catch {S A} (m : Eff S A) (h : Exception → Eff S A) : Eff S A :=
  λ b s log,
    match m b s log with
    | (s', log', inl e) => h e b s' log'
    | r => r
    end.

(** [try { m } finally { f }]: [f] runs either way, and the outcome is that
    of [m] unless [f] throws. *)
Definition finally {S A} (m : Eff S A) (f : Eff S unit) : Eff S A :=
  λ b s log,
    match m b s log with
    | (s', log', r) =>
        match f b s' log' with
        | (s'', log'', inl e) => (s'', log'', inl e)
        | (s'', log'', inr _) => (s'', log'', r)
        end
    end.

(** A state setter. *)
Definition set {S} (f : S → S) : Eff S unit := λ _ s log, (f s, log, inr tt).

(** [await fetch(url, init)]. *)
Definition fetch {S} (c : Call) : Eff S Reply :=
  λ b s log, (s, (log ++ [c])%list, b (log ++ [c])%list).

End Page.

Notation "'do' x ← m ; k" := (Page.bind m (λ x, k))
  (at level 10, x name, m at level 200, k at level 200, only parsing).

(** ** The demo chat: [DemoChat] in [frontend/app/demo/page.tsx] *)

Module DemoChat.
Import Page.

Inductive Role : Type := user | assistant.

Record Message : Type := { role : Role; content : Value }.

(** The state variables of the component, and [failed]: the error of a
    render that threw.  No file here catches such an error, so a component
    that has failed is off the page. *)
Record State : Type := {
  messages : list Message;
  input : string;
  loading : bool;
  sessionId : Value;
  failed : option Exception
}.

(** [setMessages(prev => ...)]: React queues the updater and runs it when it
    next renders, after the handler has gone on and outside its [try].  An
    updater that throws makes that render throw. *)
Definition setMessages (f : list Message → Exception + list Message)
  : Eff State unit :=
  set (λ s, match f (messages s) with
            | inr next =>
                {| messages := next; input := input s; loading := loading s;
                   sessionId := sessionId s; failed := failed s |}
            | inl e =>
                {| messages := messages s; input := input s;
                   loading := loading s; sessionId := sessionId s;
                   failed := Some e |}
            end).

Definition setInput (v : string) : Eff State unit :=
  set (λ s, {| messages := messages s; input := v; loading := loading s;
               sessionId := sessionId s; failed := failed s |}).

Definition setLoading (v : bool) : Eff State unit :=
  set (λ s, {| messages := messages s; input := input s; loading := v;
               sessionId := sessionId s; failed := failed s |}).

Definition setSessionId (v : Value) : Eff State unit :=
  set (λ s, {| messages := messages s; input := input s; loading := loading s;
               sessionId := v; failed := failed s |}).

(** The state the component starts in. *)
Definition initial : State :=
  {| messages :=
       [{| role := assistant;
           content := Str "Hello! I'm your ChatBase Pro demo assistant. Ask me anything about this platform!" |}];
     input := "";
     loading := false;
     sessionId := Null;
     failed := None |}.

Definition apology : Message :=
  {| role := assistant;
     content := Str "Sorry, I'm having trouble connecting. Make sure the backend server is running at http://localhost:8000" |}.

Section SendMessage.

(** [String.prototype.trim] and [JSON.stringify], as the platform has them. *)
Variable trim : string → string.
Variable JSON_stringify : Value → string.

(** [sendMessage], as the render in which the component has state [render]
    defines it: [input], [loading] and [sessionId] are the constants of
    that render. *)
Definition sendMessage (render : State) : Eff State unit :=
  if String.eqb (trim (input render)) "" || loading render
  then pure tt
  else
    let userMessage := trim (input render) in
    do _ ← setInput "";
    do _ ← setMessages (λ prev,
      inr (prev ++ [{| role := user; content := Str userMessage |}])%list);
    do _ ← setLoading true;
    finally
      (catch
         (do _ ←
            (if negb (truthy (sessionId render)) then
               do startResponse ← fetch
                 {| href := "/api/backend/api/start";
                    verb := "POST";
                    call_headers := [("Content-Type", "application/json")];
                    payload := Some (JSON_stringify (Obj [("name", Str "Demo User")])) |};
               if ok startResponse then
                 do startData ← lift (json startResponse);
                 do session_id ← lift (property startData "session_id");
                 setSessionId session_id
               else pure tt
             else pure tt);
          do chatResponse ← fetch
            {| href := "/api/backend/api/chat";
               verb := "POST";
               call_headers := [("Content-Type", "application/json")];
               payload := Some (JSON_stringify
                 (Obj [("text", Str userMessage);
                       ("session_id", sessionId render)])) |};
          if ok chatResponse then
            do chatData ← lift (json chatResponse);
            setMessages (λ prev,
              match property chatData "reply" with
              | inl e => inl e
              | inr reply =>
                  inr (prev ++ [{| role := assistant; content := reply |}])%list
              end)
          else throw (Thrown "Error" "Chat API error"))
         (λ error, setMessages (λ prev, inr (prev ++ [apology])%list)))
      (setLoading false).

(** A click on Send, or Enter: the handler of the current render runs. *)
Definition send (b : Browser) (s : State) : State * list Call :=
  (sendMessage s b s []).1.

(** Typing into the input: [onChange] calls [setInput(e.target.value)]. *)
Definition typed (v : string) (s : State) : State :=
  {| messages := messages s; input := v; loading := loading s;
     sessionId := sessionId s; failed := failed s |}.

(** A conversation: each turn types a text and sends it, against the
    server as it answers during that turn.  A component that has failed
    takes no further turn. *)
Fixpoint converse (turns : list (string * Browser)) (s : State) : State :=
  match turns with
  | [] => s
  | (v, b) :: rest =>
      match failed s with
      | Some _ => s
      | None => converse rest (send b (typed v s)).1
      end
  end.

End SendMessage.

End DemoChat.

(** ** The authentication providers: [AuthProvider] and [AuthProviderFixed]

    Both keep the session in two state variables and in two entries of
    [localStorage].  The handlers run in the browser, where [window] is
    defined. *)

Module Auth.
Import Page.

(** The state variables of a provider, [localStorage], and the routes
    pushed on the router. *)
Record State : Type := {
  user : Value;
  token : Value;
  isLoading : bool;
  localStorage : gmap string string;
  pushed : list string
}.

Definition setUser (v : Value) : Eff State unit :=
  set (λ s, {| user := v; token := token s; isLoading := isLoading s;
               localStorage := localStorage s; pushed := pushed s |}).

Definition setToken (v : Value) : Eff State unit :=
  set (λ s, {| user := user s; token := v; isLoading := isLoading s;
               localStorage := localStorage s; pushed := pushed s |}).

Definition setIsLoading (v : bool) : Eff State unit :=
  set (λ s, {| user := user s; token := token s; isLoading := v;
               localStorage := localStorage s; pushed := pushed s |}).

Definition setItem (key value : string) : Eff State unit :=
  set (λ s, {| user := user s; token := token s; isLoading := isLoading s;
               localStorage := <[key := value]> (localStorage s);
               pushed := pushed s |}).

Definition removeItem (key : string) : Eff State unit :=
  set (λ s, {| user := user s; token := token s; isLoading := isLoading s;
               localStorage := delete key (localStorage s);
               pushed := pushed s |}).

Definition router_push (route : string) : Eff State unit :=
  set (λ s, {| user := user s; token := token s; isLoading := isLoading s;
               localStorage := localStorage s;
               pushed := (pushed s ++ [route])%list |}).

(** [localStorage.getItem(key)]: a string, or [null]. *)
Definition getItem (key : string) : Eff State (option string) :=
  λ _ s log, (s, log, inr (localStorage s !! key)).

(** A stored string as a condition: [null] and the empty string are falsy. *)
Definition present (o : option string) : bool :=
  match o with
  | Some v => negb (String.eqb v "")
  | None => false
  end.

(** The state a provider mounts in, over the storage the browser has. *)
Definition mounting (storage : gmap string string) (loading : bool) : State :=
  {| user := Null; token := Null; isLoading := loading;
     localStorage := storage; pushed := [] |}.

Section Providers.

(** [JSON.parse], [JSON.stringify] (which gives [undefined] for some
    values) and the conversion of a value to a string that [setItem]
    applies, as the platform has them. *)
Variable JSON_parse : string → Exception + Value.
Variable JSON_stringify : Value → option string.
Variable String_of : Value → string.

Definition stringified (v : Value) : string :=
  match JSON_stringify v with
  | Some s => s
  | None => String_of Undefined
  end.

Definition login_call (email password : string) : Call :=
  {| href := "/api/backend/api/auth/login";
     verb := "POST";
     call_headers := [("Content-Type", "application/json")];
     payload := JSON_stringify (Obj [("email", Str email);
                                     ("password", Str password)]) |}.

(** The effect [AuthProvider] runs on mount. *)
Definition mount : Eff State unit :=
  do storedToken ← getItem "auth_token";
  do storedUser ← getItem "auth_user";
  do _ ←
    (if present storedToken && present storedUser then
       do _ ← setToken (Str (default "" storedToken));
       do parsed ← lift (JSON_parse (default "" storedUser));
       setUser parsed
     else pure tt);
  setIsLoading false.

(** [login] of [AuthProvider]. *)
Definition login (email password : string) : Eff State bool :=
  catch
    (do response ← fetch (login_call email password);
     if ok response then
       do data ← lift (json response);
       do data_token ← lift (property data "token");
       do _ ← setToken data_token;
       do data_user ← lift (property data "user");
       do _ ← setUser data_user;
       do _ ← setItem "auth_token" (String_of data_token);
       do _ ← setItem "auth_user" (stringified data_user);
       pure true
     else pure false)
    (λ error, pure false).

(** [logout], the same in both providers. *)
Definition logout : Eff State unit :=
  do _ ← setToken Null;
  do _ ← setUser Null;
  do _ ← removeItem "auth_token";
  do _ ← removeItem "auth_user";
  router_push "/login".

(** The effect [AuthProviderFixed] runs on mount. *)
Definition mount_fixed : Eff State unit :=
  do storedToken ← getItem "auth_token";
  do storedUser ← getItem "auth_user";
  do _ ←
    (if present storedToken && present storedUser then
       catch
         (do parsedUser ← lift (JSON_parse (default "" storedUser));
          do _ ← setToken (Str (default "" storedToken));
          setUser parsedUser)
         (λ error,
            do _ ← removeItem "auth_token";
            removeItem "auth_user")
     else pure tt);
  setIsLoading false.

(** [login] of [AuthProviderFixed]. *)
Definition login_fixed (email password : string) : Eff State bool :=
  catch
    (do response ← fetch (login_call email password);
     if ok response then
       do data ← lift (json response);
       do data_token ← lift (property data "token");
       if truthy data_token then
         do data_user ← lift (property data "user");
         if truthy data_user then
           do _ ← setToken data_token;
           do _ ← setUser data_user;
           do _ ← setItem "auth_token" (String_of data_token);
           do _ ← setItem "auth_user" (stringified data_user);
           pure true
         else pure false
       else pure false
     else
       do errorText ← lift (body_text response);
       pure false)
    (λ error, pure false).

End Providers.

End Auth.

(** ** The knowledge page: [getStatusColor] in [frontend/app/knowledge/page.tsx] *)

Module Knowledge.

Definition getStatusColor (status : string) : string :=
  if String.eqb status "completed" then "#10b981"
  else if String.eqb status "processing" then "#f59e0b"
  else if String.eqb status "failed" then "#ef4444"
  else "#6b7280".

End Knowledge.

(** ** The chatbots page: [ChatbotsPage] in [frontend/app/chatbots/page.tsx] *)

Module Chatbots.
Import Page.
Import PrimFloat.

(** The form of a new chatbot. *)
Record Form : Type := {
  title : string;
  description : string;
  system_prompt : string;
  model : string;
  temperature : float;
  max_tokens : float
}.

#[warnings="-inexact-float"]
Definition blank : Form :=
  {| title := "";
     description := "";
     system_prompt := "You are a helpful AI assistant.";
     model := "llama-3.1-8b-instant";
     temperature := 0.3%float;
     max_tokens := 1000%float |}.

(** The form as the object that is handed to [JSON.stringify]. *)
Definition form_object (f : Form) : Value :=
  Obj [("title", Str (title f));
       ("description", Str (description f));
       ("system_prompt", Str (system_prompt f));
       ("model", Str (model f));
       ("temperature", Number (temperature f));
       ("max_tokens", Number (max_tokens f))].

(** The state variables of the page. *)
Record State : Type := {
  chatbots : Value;
  loading : bool;
  showCreateForm : bool;
  newChatbot : Form
}.

Definition initial : State :=
  {| chatbots := Arr []; loading := true;
     showCreateForm := false; newChatbot := blank |}.

Definition setChatbots (v : Value) : Eff State unit :=
  set (λ s, {| chatbots := v; loading := loading s;
               showCreateForm := showCreateForm s; newChatbot := newChatbot s |}).

Definition setLoading (v : bool) : Eff State unit :=
  set (λ s, {| chatbots := chatbots s; loading := v;
               showCreateForm := showCreateForm s; newChatbot := newChatbot s |}).

Definition setShowCreateForm (v : bool) : Eff State unit :=
  set (λ s, {| chatbots := chatbots s; loading := loading s;
               showCreateForm := v; newChatbot := newChatbot s |}).

Definition setNewChatbot (v : Form) : Eff State unit :=
  set (λ s, {| chatbots := chatbots s; loading := loading s;
               showCreateForm := showCreateForm s; newChatbot := v |}).

Section Handlers.

(** [JSON.stringify] on an object and the conversion of a value to a
    string in a template literal, as the platform has them; [token] is what
    [useAuth()] gave the render. *)
Variable JSON_stringify : Value → string.
Variable String_of : Value → string.
Variable token : Value.

Definition fetchChatbots : Eff State unit :=
  finally
    (catch
       (do response ← fetch
          {| href := "/api/backend/api/chatbots";
             verb := "GET";
             call_headers := [("Authorization", "Bearer " +:+ String_of token)];
             payload := None |};
        if ok response then
          do data ← lift (json response);
          setChatbots data
        else pure tt)
       (λ error, pure tt))
    (setLoading false).

(** [createChatbot], as the render in which the page has state [render]
    defines it. *)
Definition createChatbot (render : State) : Eff State unit :=
  catch
    (do response ← fetch
       {| href := "/api/backend/api/chatbots";
          verb := "POST";
          call_headers := [("Authorization", "Bearer " +:+ String_of token);
                           ("Content-Type", "application/json")];
          payload := Some (JSON_stringify (form_object (newChatbot render))) |};
     if ok response then
       do _ ← fetchChatbots;
       do _ ← setShowCreateForm false;
       setNewChatbot blank
     else pure tt)
    (λ error, pure tt).

End Handlers.

End Chatbots.

(** ** The login page: [LoginPage] in [frontend/app/demo/page.tsx] *)

Module Login.
Import Page.

(** The state variables of the page, [localStorage], and the routes pushed
    on the router. *)
Record State : Type := {
  email : string;
  password : string;
  isLogin : bool;
  name : string;
  username : string;
  loading : bool;
  error : Value;
  localStorage : gmap string string;
  pushed : list string
}.

Definition setLoading (v : bool) : Eff State unit :=
  set (λ s, {| email := email s; password := password s; isLogin := isLogin s;
               name := name s; username := username s; loading := v;
               error := error s; localStorage := localStorage s;
               pushed := pushed s |}).

Definition setError (v : Value) : Eff State unit :=
  set (λ s, {| email := email s; password := password s; isLogin := isLogin s;
               name := name s; username := username s; loading := loading s;
               error := v; localStorage := localStorage s;
               pushed := pushed s |}).

Definition setItem (key value : string) : Eff State unit :=
  set (λ s, {| email := email s; password := password s; isLogin := isLogin s;
               name := name s; username := username s; loading := loading s;
               error := error s;
               localStorage := <[key := value]> (localStorage s);
               pushed := pushed s |}).

Definition router_push (route : string) : Eff State unit :=
  set (λ s, {| email := email s; password := password s; isLogin := isLogin s;
               name := name s; username := username s; loading := loading s;
               error := error s; localStorage := localStorage s;
               pushed := (pushed s ++ [route])%list |}).

(** [a || b] on values. *)
Definition or_value (a b : Value) : Value := if truthy a then a else b.

Section Handlers.

Variable JSON_stringify : Value → option string.
Variable String_of : Value → string.

Definition stringified (v : Value) : string :=
  match JSON_stringify v with
  | Some s => s
  | None => String_of Undefined
  end.

(** The call [handleSubmit] makes, from the state of its render. *)
Definition submit_call (render : State) : Call :=
  {| href := if isLogin render then "/api/backend/api/auth/login"
             else "/api/backend/api/auth/register";
     verb := "POST";
     call_headers := [("Content-Type", "application/json")];
     payload :=
       JSON_stringify
         (if isLogin render
          then Obj [("email", Str (email render));
                    ("password", Str (password render))]
          else Obj [("email", Str (email render));
                    ("password", Str (password render));
                    ("name", Str (name render));
                    ("username", Str (username render))]) |}.

(** [handleSubmit], as the render in which the page has state [render]
    defines it. *)
Definition handleSubmit (render : State) : Eff State unit :=
  do _ ← setLoading true;
  do _ ← setError (Str "");
  finally
    (catch
       (do response ← fetch (submit_call render);
        do data ← lift (json response);
        if ok response then
          do data_token ← lift (property data "token");
          do _ ← setItem "auth_token" (String_of data_token);
          do data_user ← lift (property data "user");
          do _ ← setItem "auth_user" (stringified data_user);
          router_push "/dashboard"
        else
          do detail ← lift (property data "detail");
          setError (or_value detail (Str "Authentication failed")))
       (λ error, setError (Str "Network error. Please try again.")))
    (setLoading false).

End Handlers.

End Login.

(** * Properties *)

(** ** The model on small inputs *)

Example utf8_ascii : Utf8.encode [0x7B; 0x7D] = ["{"; "}"]%byte.
Proof. reflexivity. Qed.

Example utf8_euro : Utf8.encode [0x20AC] = [xe2; x82; xac]%byte.
Proof. reflexivity. Qed.

Example utf8_euro_back : Utf8.decode [xe2; x82; xac]%byte = [0x20AC].
Proof. reflexivity. Qed.

Example utf8_ill_formed : Utf8.decode [xff]%byte = [0xFFFD].
Proof. reflexivity. Qed.

Example utf8_truncated : Utf8.decode [xe2; x82]%byte = [0xFFFD].
Proof. reflexivity. Qed.

Example utf8_bom_dropped : Utf8.decode [xef; xbb; xbf; "A"]%byte = [0x41].
Proof. reflexivity. Qed.

Example get_is_case_insensitive :
  Headers.get [("content-type", "text/html")] "Content-Type" = Some "text/html".
Proof. reflexivity. Qed.

Example get_absent : Headers.get [("Accept", "*/*")] "Content-Type" = None.
Proof. reflexivity. Qed.

Example join_segments : Js.join "/" ["a"; "b"; "c"] = "a/b/c".
Proof. reflexivity. Qed.

Example or_else_empty : Js.or_else (Some "") "application/json" = "application/json".
Proof. reflexivity. Qed.

(** ** The UTF-8 codec: decoding an encoded text *)

Module Utf8Facts.
Import Utf8.

Lemma lor_shiftl_low (a b n : N) :
  b < 2 ^ n → N.lor (N.shiftl a n) b = a * 2 ^ n + b.
Proof.
  intros Hb.
  rewrite <- N.lxor_lor, <- N.add_nocarry_lxor, N.shiftl_mul_pow2; try reflexivity.
  all: apply N.bits_inj; intros m; rewrite N.land_spec, N.bits_0.
  all: destruct (N.lt_ge_cases m n) as [Hm | Hm].
  all: try (rewrite N.shiftl_spec_low by exact Hm; reflexivity).
  all: rewrite <- (N.mod_small b (2 ^ n)) by exact Hb.
  all: rewrite <- N.land_ones, N.land_spec, N.ones_spec_high by exact Hm.
  all: rewrite !andb_false_r; reflexivity.
Qed.

Lemma land_low (a n : N) : N.land a (N.ones n) = a mod 2 ^ n.
Proof. apply N.land_ones. Qed.

Lemma continuation_byte (t : N) :
  N.lor 0x80 (N.land t 0x3F) = 128 + t mod 64.
Proof.
  change 0x3F with (N.ones 6). rewrite N.land_ones.
  change 0x80 with (N.shiftl 2 6).
  rewrite lor_shiftl_low; [reflexivity |].
  apply N.mod_upper_bound. discriminate.
Qed.

Lemma assemble (a b : N) :
  N.lor (N.shiftl a 6) (N.land b 0x3F) = a * 64 + b mod 64.
Proof.
  change 0x3F with (N.ones 6). rewrite N.land_ones.
  rewrite lor_shiftl_low; [reflexivity |].
  apply N.mod_upper_bound. discriminate.
Qed.

Lemma encode_point_arith (c : N) :
  encode_point c =
    if c <=? 0x7F then [c]
    else if c <=? 0x7FF then [c / 64 + 192; 128 + c mod 64]
    else if c <=? 0xFFFF then
      [c / 4096 + 224; 128 + (c / 64) mod 64; 128 + c mod 64]
    else [c / 262144 + 240; 128 + (c / 4096) mod 64;
          128 + (c / 64) mod 64; 128 + c mod 64].
Proof.
  unfold encode_point.
  rewrite !continuation_byte, !N.shiftr_div_pow2. reflexivity.
Qed.

Ltac Zify.zify_post_hook ::= Z.to_euclidean_division_equations.

Ltac decide_tests :=
  repeat match goal with
  | |- context [N.leb ?a ?b] =>
      first [ rewrite (proj2 (N.leb_le a b)) by lia
            | rewrite (proj2 (N.leb_gt a b)) by lia ]
  | |- context [N.eqb ?a ?b] =>
      first [ rewrite (proj2 (N.eqb_eq a b)) by lia
            | rewrite (proj2 (N.eqb_neq a b)) by lia ]
  end; cbn [andb orb].

Lemma process_cons (s : state) (b : N) (rest : list N) :
  process s (b :: rest) = (fst (handle s b) ++ process (snd (handle s b)) rest)%list.
Proof. cbn [process]. destruct (handle s b); reflexivity. Qed.

Lemma handle_start (b : N) : handle start b = lead b.
Proof. reflexivity. Qed.

Lemma handle_continue (a k lo hi b : N) :
  k ≠ 0 → lo <= b → b <= hi →
  handle (State a k lo hi) b =
    if k =? 1 then ([a * 64 + b mod 64], start)
    else ([], State (a * 64 + b mod 64) (k - 1) 0x80 0xBF).
Proof.
  intros Hk Hlo Hhi. unfold handle. cbn [bytes_needed lower upper code_point].
  rewrite assemble. decide_tests. reflexivity.
Qed.

Lemma lead_1 (c : N) : c <= 0x7F → lead c = ([c], start).
Proof. intros H. unfold lead. decide_tests. reflexivity. Qed.

Lemma lead_2 (c : N) :
  0x7F < c → c <= 0x7FF →
  lead (c / 64 + 192) = ([], State (c / 64) 1 0x80 0xBF).
Proof.
  intros H1 H2. unfold lead. decide_tests.
  change 0x1F with (N.ones 5). rewrite N.land_ones.
  do 2 f_equal. f_equal; lia.
Qed.

Lemma lead_3 (c : N) :
  0x7FF < c → c <= 0xFFFF →
  lead (c / 4096 + 224) =
    ([], State (c / 4096) 2
               (if c / 4096 =? 0 then 0xA0 else 0x80)
               (if c / 4096 =? 13 then 0x9F else 0xBF)).
Proof.
  intros H1 H2. unfold lead.
  change 0xF with (N.ones 4). rewrite N.land_ones.
  replace ((c / 4096 + 224) mod 2 ^ 4) with (c / 4096) by lia.
  destruct (N.eqb_spec (c / 4096) 0), (N.eqb_spec (c / 4096) 13);
    try lia; decide_tests; reflexivity.
Qed.

Lemma lead_4 (c : N) :
  0xFFFF < c → c <= 0x10FFFF →
  lead (c / 262144 + 240) =
    ([], State (c / 262144) 3
               (if c / 262144 =? 0 then 0x90 else 0x80)
               (if c / 262144 =? 4 then 0x8F else 0xBF)).
Proof.
  intros H1 H2. unfold lead.
  change 0x7 with (N.ones 3). rewrite N.land_ones.
  replace ((c / 262144 + 240) mod 2 ^ 3) with (c / 262144) by lia.
  destruct (N.eqb_spec (c / 262144) 0), (N.eqb_spec (c / 262144) 4);
    try lia; decide_tests; reflexivity.
Qed.

Lemma process_encode_point (c : N) (rest : list N) :
  is_scalar c →
  process start (encode_point c ++ rest) = c :: process start rest.
Proof.
  intros Hc. rewrite encode_point_arith.
  destruct (N.leb_spec c 0x7F) as [H1 | H1].
  { cbn [app]. rewrite process_cons, handle_start, lead_1 by exact H1. reflexivity. }
  destruct (N.leb_spec c 0x7FF) as [H2 | H2].
  { cbn [app]. rewrite process_cons, handle_start, lead_2 by lia. cbn [fst snd app].
    rewrite process_cons, handle_continue by lia.
    change (1 =? 1) with true. cbn [fst snd app].
    f_equal. lia. }
  destruct (N.leb_spec c 0xFFFF) as [H3 | H3].
  { cbn [app]. rewrite process_cons, handle_start, lead_3 by lia. cbn [fst snd app].
    rewrite process_cons, handle_continue;
      [ | lia | destruct (N.eqb_spec (c / 4096) 0); lia
        | destruct (N.eqb_spec (c / 4096) 13); destruct Hc; lia ].
    change (2 =? 1) with false. change (2 - 1) with 1. cbn [fst snd app].
    rewrite process_cons, handle_continue by lia.
    change (1 =? 1) with true. cbn [fst snd app].
    f_equal. lia. }
  assert (c <= 0x10FFFF) as H4 by (destruct Hc; lia).
  cbn [app]. rewrite process_cons, handle_start, lead_4 by lia. cbn [fst snd app].
  rewrite process_cons, handle_continue;
    [ | lia | destruct (N.eqb_spec (c / 262144) 0); lia
      | destruct (N.eqb_spec (c / 262144) 4); lia ].
  change (3 =? 1) with false. change (3 - 1) with 2. cbn [fst snd app].
  rewrite process_cons, handle_continue by lia.
  change (2 =? 1) with false. change (2 - 1) with 1. cbn [fst snd app].
  rewrite process_cons, handle_continue by lia.
  change (1 =? 1) with true. cbn [fst snd app].
  f_equal. lia.
Qed.

Lemma to_N_byte_of_N (n : N) : n <= 255 → Byte.to_N (byte_of_N n) = n.
Proof.
  intros Hn. unfold byte_of_N.
  destruct (Byte.of_N n) as [b |] eqn:Hb.
  - apply Byte.to_of_N. exact Hb.
  - apply Byte.of_N_None_iff in Hb. lia.
Qed.

Lemma encode_point_bytes (c : N) :
  c <= 0x10FFFF → Forall (λ b, b <= 255) (encode_point c).
Proof.
  intros Hc. rewrite encode_point_arith.
  destruct (N.leb_spec c 0x7F); [| destruct (N.leb_spec c 0x7FF);
    [| destruct (N.leb_spec c 0xFFFF)]];
    repeat constructor; lia.
Qed.

Lemma is_scalar_bound (c : N) : is_scalar c → c <= 0x10FFFF.
Proof. intros [H | [_ H]]; lia. Qed.

Lemma to_N_encode (t : list N) :
  Forall is_scalar t →
  map Byte.to_N (encode t) = concat (map encode_point t).
Proof.
  intros Ht. unfold encode. rewrite map_map.
  assert (Forall (λ b, b <= 255) (concat (map encode_point t))) as Hb.
  { induction Ht as [| c t Hc _ IH]; [constructor |].
    cbn [map concat]. apply Forall_app. split; [| exact IH].
    apply encode_point_bytes, is_scalar_bound, Hc. }
  induction Hb as [| b bs Hb _ IH]; [reflexivity |].
  cbn [map]. rewrite to_N_byte_of_N by exact Hb. f_equal. exact IH.
Qed.

Lemma process_encode (t : list N) :
  Forall is_scalar t → process start (concat (map encode_point t)) = t.
Proof.
  induction 1 as [| c t Hc _ IH]; [reflexivity |].
  cbn [map concat]. rewrite process_encode_point by exact Hc.
  f_equal. exact IH.
Qed.

Lemma strip_bom_other (b : N) (bs : list N) :
  b ≠ 0xEF → strip_bom (b :: bs) = b :: bs.
Proof.
  intros Hb. unfold strip_bom.
  destruct bs as [| b1 [| b2 rest]]; try reflexivity.
  rewrite (proj2 (N.eqb_neq b 0xEF)) by exact Hb. reflexivity.
Qed.

Lemma strip_bom_encode_point (c : N) (rest : list N) :
  c ≠ bom →
  strip_bom (encode_point c ++ rest) = (encode_point c ++ rest)%list.
Proof.
  unfold bom. intros Hc. rewrite encode_point_arith.
  destruct (N.leb_spec c 0x7F); [| destruct (N.leb_spec c 0x7FF);
    [| destruct (N.leb_spec c 0xFFFF)]]; cbn [app].
  1, 2, 4: apply strip_bom_other; lia.
  unfold strip_bom.
  destruct (N.eqb_spec (c / 4096 + 224) 0xEF); [| reflexivity].
  destruct (N.eqb_spec (128 + (c / 64) mod 64) 0xBB); [| reflexivity].
  destruct (N.eqb_spec (128 + c mod 64) 0xBF); [| reflexivity].
  lia.
Qed.

(** Encoding a text and decoding it again gives the text back, unless it
    starts with U+FEFF, which the decoder takes for a byte order mark. *)
Lemma decode_encode (t : list N) :
  Forall is_scalar t → head t ≠ Some bom → decode (encode t) = t.
Proof.
  intros Ht Hbom. unfold decode. rewrite to_N_encode by exact Ht.
  destruct Ht as [| c t Hc Ht]; [reflexivity |].
  cbn [map concat]. rewrite strip_bom_encode_point.
  - rewrite process_encode_point by exact Hc. f_equal. apply process_encode, Ht.
  - intros ->. apply Hbom. reflexivity.
Qed.

(** A body that is the encoding of such a text survives [text()] followed
    by body extraction unchanged. *)
Lemma encode_decode_encode (t : list N) :
  Forall is_scalar t → head t ≠ Some bom →
  encode (decode (encode t)) = encode t.
Proof. intros Ht Hbom. rewrite decode_encode; auto. Qed.

End Utf8Facts.

(** ** Header lists and the [Response] constructor *)

Import Route.

Lemma with_text_type_content_type (v : string) :
  Headers.with_text_type [("Content-Type", v)] = [("Content-Type", v)].
Proof. reflexivity. Qed.

Lemma get_content_type_singleton (v : string) :
  Headers.get [("Content-Type", v)] "Content-Type" = Some v.
Proof. reflexivity. Qed.

Lemma same_name_sym (a b : string) : Headers.same_name a b = Headers.same_name b a.
Proof. unfold Headers.same_name. apply String.eqb_sym. Qed.

Lemma get_other_name (v name : string) :
  Headers.same_name name "Content-Type" = false →
  Headers.get [("Content-Type", v)] name = None.
Proof.
  intros Hname. unfold Headers.get, Headers.values_of.
  rewrite filter_cons_False, filter_nil; [reflexivity |].
  cbn [fst]. rewrite same_name_sym, Hname. discriminate.
Qed.

Lemma relayable_status (s : N) :
  200 <= s → s <= 599 → s ≠ 204 → s ≠ 205 → s ≠ 304 →
  null_body_status s = false.
Proof.
  intros. unfold null_body_status.
  rewrite !(proj2 (N.eqb_neq s _)) by lia. reflexivity.
Qed.

Lemma new_Response_accepts (b : list N) (s : N) (v : string) :
  200 <= s → s <= 599 → null_body_status s = false →
  new_Response b {| init_status := s;
                    init_response_headers := [("Content-Type", v)] |} =
    inr {| status := s; headers := [("Content-Type", v)];
           body_bytes := Utf8.encode b |}.
Proof.
  intros Hlo Hhi Hnull. unfold new_Response. cbn [init_status init_response_headers].
  rewrite Hnull, (proj2 (N.ltb_ge s 200)), (proj2 (N.ltb_ge 599 s)) by lia.
  reflexivity.
Qed.

Lemma new_Response_inv (b : list N) (s : N) (v : string) (resp : Response) :
  new_Response b {| init_status := s;
                    init_response_headers := [("Content-Type", v)] |} = inr resp →
  resp = {| status := s; headers := [("Content-Type", v)];
            body_bytes := Utf8.encode b |}.
Proof.
  unfold new_Response. cbn [init_status init_response_headers].
  destruct (_ || _); [discriminate |].
  destruct (null_body_status s); [discriminate |].
  intros [= <-]. reflexivity.
Qed.

(** ** What one call of a handler sends and settles with *)

Lemma GET_run (sc : Scope) (req : NextRequest) (ctx : Context) (net : Network) :
  let rq := {| url := target sc req ctx; method := "GET";
               request_headers := []; request_body := None |} in
  Async.run (GET sc req ctx) net =
    ([rq],
     match net rq with
     | inl e => inl e
     | inr r => new_Response (Utf8.decode (body_bytes r)) (relayed r)
     end).
Proof.
  unfold Async.run, GET, Async.await, fetch, text, Async.resolve, Async.settle.
  cbn [app]. destruct (net _); reflexivity.
Qed.

Lemma POST_run (sc : Scope) (req : NextRequest) (ctx : Context) (net : Network) :
  let rq := {| url := target sc req ctx; method := "POST";
               request_headers :=
                 [("Content-Type",
                   Js.or_else (Headers.get (inbound_headers req) "Content-Type")
                              "application/json")];
               request_body :=
                 Some (Utf8.encode (Utf8.decode (inbound_body req))) |} in
  Async.run (POST sc req ctx) net =
    ([rq],
     match net rq with
     | inl e => inl e
     | inr r => new_Response (Utf8.decode (body_bytes r)) (relayed r)
     end).
Proof.
  unfold Async.run, POST, Async.await, fetch, text, Async.resolve, Async.settle.
  cbn [app init_method init_headers init_body].
  rewrite with_text_type_content_type. destruct (net _); reflexivity.
Qed.

Section OneCall.

Variables (handler : Handler) (sc : Scope) (req : NextRequest) (ctx : Context).
Variable net : Network.
Hypothesis exported : handler = GET ∨ handler = POST.

(** Both handlers send one request and relay its outcome the same way. *)
Lemma handler_run :
  ∃ rq, Async.run (handler sc req ctx) net =
    ([rq],
     match net rq with
     | inl e => inl e
     | inr r => new_Response (Utf8.decode (body_bytes r)) (relayed r)
     end).
Proof.
  destruct exported as [-> | ->]; eexists; [apply GET_run | apply POST_run].
Qed.

Section Answered.

Variable r : Response.
Hypothesis answered : net <$> (Async.run (handler sc req ctx) net).1 = [inr r].

(** The outcome of a call whose request the upstream answered with [r]. *)
Lemma handler_relays :
  (Async.run (handler sc req ctx) net).2 =
    new_Response (Utf8.decode (body_bytes r)) (relayed r).
Proof.
  destruct handler_run as [rq Hrun]. revert answered.
  rewrite Hrun. cbn [fst snd fmap list_fmap].
  intros [= ->]. reflexivity.
Qed.

(** A response a handler returns is built from the upstream response. *)
Lemma handler_returned (resp : Response) :
  (Async.run (handler sc req ctx) net).2 = inr resp →
  resp = {| status := status r;
            headers :=
              [("Content-Type",
                Js.or_else (Headers.get (headers r) "Content-Type")
                           "application/json")];
            body_bytes := Utf8.encode (Utf8.decode (body_bytes r)) |}.
Proof. rewrite handler_relays. apply new_Response_inv. Qed.

(** A handler returns a response whenever the upstream status is one the
    [Response] constructor takes together with a body. *)
Lemma handler_returns :
  200 <= status r → status r <= 599 →
  status r ≠ 204 → status r ≠ 205 → status r ≠ 304 →
  (Async.run (handler sc req ctx) net).2 =
    inr {| status := status r;
           headers :=
             [("Content-Type",
               Js.or_else (Headers.get (headers r) "Content-Type")
                          "application/json")];
           body_bytes := Utf8.encode (Utf8.decode (body_bytes r)) |}.
Proof.
  intros Hlo Hhi H204 H205 H304. rewrite handler_relays.
  apply new_Response_accepts; [exact Hlo | exact Hhi |].
  apply relayable_status; assumption.
Qed.

End Answered.

End OneCall.

(** ** The upstream request *)

(** C1. An inbound GET sends exactly one upstream request: a GET with no
    body, to the base URL, a slash, the path segments joined by slashes and
    the raw query string.  With base URL http://example.test, segments foo
    and bar and an empty query the URL is http://example.test/foo/bar. *)
Theorem GET_sends_one_request :
  (∀ sc req ctx net,
     (Async.run (GET sc req ctx) net).1 =
       [{| url := BACKEND sc +:+ "/" +:+ Js.join "/" (path (params ctx))
                    +:+ search (nextUrl req);
           method := "GET";
           request_headers := [];
           request_body := None |}])
  ∧ (∀ hs b net,
       url <$> (Async.run
                  (GET (evaluate {["NEXT_PUBLIC_BACKEND_URL" := "http://example.test"]})
                       {| nextUrl := {| search := "" |};
                          inbound_headers := hs; inbound_body := b |}
                       {| params := {| path := ["foo"; "bar"] |} |}) net).1 =
       ["http://example.test/foo/bar"]).
Proof.
  split; intros.
  - rewrite GET_run. reflexivity.
  - rewrite GET_run. reflexivity.
Qed.

Example GET_three_segments_and_query (net : Network) :
  url <$> (Async.run
             (GET {| BACKEND := "http://upstream" |}
                  {| nextUrl := {| search := "?x=1" |};
                     inbound_headers := []; inbound_body := [] |}
                  {| params := {| path := ["a"; "b"; "c"] |} |}) net).1 =
  ["http://upstream/a/b/c?x=1"].
Proof. rewrite GET_run. reflexivity. Qed.

(** C3, as the code has it.  The outbound request is built anew: the GET
    carries no header of the inbound request, the POST carries one header,
    Content-Type. *)
Theorem outbound_headers_rebuilt :
  ∀ sc req ctx net,
    request_headers <$> (Async.run (GET sc req ctx) net).1 = [[]]
    ∧ request_headers <$> (Async.run (POST sc req ctx) net).1 =
        [[("Content-Type",
           Js.or_else (Headers.get (inbound_headers req) "Content-Type")
                      "application/json")]].
Proof.
  intros. rewrite GET_run, POST_run. split; reflexivity.
Qed.

(** C3 fails as stated: an inbound GET with an Authorization header sends an
    upstream request without it. *)
Lemma inbound_header_not_replayed :
  (Async.run
     (GET (evaluate ∅)
          {| nextUrl := {| search := "" |};
             inbound_headers := [("Authorization", "Bearer token")];
             inbound_body := [] |}
          {| params := {| path := ["api"; "chatbots"] |} |})
     (λ _, inr {| status := 401; headers := []; body_bytes := [] |})).1 =
    [{| url := "http://localhost:8000/api/chatbots"; method := "GET";
        request_headers := []; request_body := None |}]
  ∧ ¬ (∀ rq name v,
         rq ∈ (Async.run
                 (GET (evaluate ∅)
                      {| nextUrl := {| search := "" |};
                         inbound_headers := [("Authorization", "Bearer token")];
                         inbound_body := [] |}
                      {| params := {| path := ["api"; "chatbots"] |} |})
                 (λ _, inr {| status := 401; headers := []; body_bytes := [] |})).1 →
         Headers.get [("Authorization", "Bearer token")] name = Some v →
         Headers.get (request_headers rq) name = Some v).
Proof.
  rewrite GET_run. split; [reflexivity |].
  intros H.
  specialize (H _ "Authorization" "Bearer token" (list_elem_of_here _ _) eq_refl).
  discriminate H.
Qed.

(** C4, as the code has it.  The outbound POST body is the inbound body
    read as text and encoded again; an inbound body that is the encoding of
    a text with no leading byte order mark is sent byte for byte. *)
Theorem POST_body_through_text :
  ∀ sc req ctx net,
    request_body <$> (Async.run (POST sc req ctx) net).1 =
      [Some (Utf8.encode (Utf8.decode (inbound_body req)))]
    ∧ ∀ t, Forall Utf8.is_scalar t → head t ≠ Some Utf8.bom →
           inbound_body req = Utf8.encode t →
           request_body <$> (Async.run (POST sc req ctx) net).1 =
             [Some (inbound_body req)].
Proof.
  intros. rewrite POST_run. split; [reflexivity |].
  intros t Ht Hbom ->. cbn [fmap list_fmap request_body].
  rewrite Utf8Facts.decode_encode by assumption. reflexivity.
Qed.

Lemma POST_body_through_text_witness :
  request_body <$>
    (Async.run
       (POST (evaluate ∅)
             {| nextUrl := {| search := "" |};
                inbound_headers := [("Content-Type", "application/json")];
                inbound_body := Utf8.encode [0x7B; 0x22; 0x20AC; 0x22; 0x7D] |}
             {| params := {| path := ["api"; "chat"] |} |})
       (λ _, inr {| status := 200; headers := []; body_bytes := [] |})).1 =
    [Some (Utf8.encode [0x7B; 0x22; 0x20AC; 0x22; 0x7D])].
Proof.
  apply (proj2 (POST_body_through_text
                  (evaluate ∅)
                  {| nextUrl := {| search := "" |};
                     inbound_headers := [("Content-Type", "application/json")];
                     inbound_body := Utf8.encode [0x7B; 0x22; 0x20AC; 0x22; 0x7D] |}
                  {| params := {| path := ["api"; "chat"] |} |}
                  (λ _, inr {| status := 200; headers := []; body_bytes := [] |}))
               [0x7B; 0x22; 0x20AC; 0x22; 0x7D]).
  - repeat constructor; unfold Utf8.is_scalar; lia.
  - discriminate.
  - reflexivity.
Defined.

(** C4 fails as stated: an inbound body that is not well-formed UTF-8 is not
    sent byte for byte. *)
Lemma POST_body_not_byte_for_byte :
  request_body <$>
    (Async.run
       (POST (evaluate ∅)
             {| nextUrl := {| search := "" |};
                inbound_headers := [("Content-Type", "application/octet-stream")];
                inbound_body := [xff] |}
             {| params := {| path := ["upload"] |} |})
       (λ _, inr {| status := 200; headers := []; body_bytes := [] |})).1 =
    [Some [xef; xbf; xbd]]
  ∧ ¬ (request_body <$>
         (Async.run
            (POST (evaluate ∅)
                  {| nextUrl := {| search := "" |};
                     inbound_headers := [("Content-Type", "application/octet-stream")];
                     inbound_body := [xff] |}
                  {| params := {| path := ["upload"] |} |})
            (λ _, inr {| status := 200; headers := []; body_bytes := [] |})).1 =
       [Some [xff]]).
Proof.
  rewrite POST_run. split; [reflexivity | discriminate].
Qed.

(** C5, as the code has it.  The Content-Type of the outbound POST is the
    inbound Content-Type when that is present and not empty, and
    application/json when it is absent or empty. *)
Theorem POST_content_type :
  ∀ sc req ctx net,
    ∃ rq, (Async.run (POST sc req ctx) net).1 = [rq]
      ∧ (∀ v, Headers.get (inbound_headers req) "Content-Type" = Some v →
              v ≠ "" →
              Headers.get (request_headers rq) "Content-Type" = Some v)
      ∧ (Headers.get (inbound_headers req) "Content-Type" = None
         ∨ Headers.get (inbound_headers req) "Content-Type" = Some "" →
         Headers.get (request_headers rq) "Content-Type" =
           Some "application/json").
Proof.
  intros. rewrite POST_run. eexists. split; [reflexivity |].
  cbn [request_headers]. rewrite get_content_type_singleton.
  split.
  - intros v -> Hv. destruct v; [contradiction | reflexivity].
  - intros [-> | ->]; reflexivity.
Qed.

Lemma POST_content_type_witness :
  (∃ rq,
     (Async.run
        (POST (evaluate ∅)
              {| nextUrl := {| search := "" |};
                 inbound_headers := [("content-type", "text/plain")];
                 inbound_body := [] |}
              {| params := {| path := ["api"; "chat"] |} |})
        (λ _, inr {| status := 200; headers := []; body_bytes := [] |})).1 = [rq]
     ∧ Headers.get (request_headers rq) "Content-Type" = Some "text/plain")
  ∧ (∃ rq,
       (Async.run
          (POST (evaluate ∅)
                {| nextUrl := {| search := "" |};
                   inbound_headers := [("Accept", "*/*")];
                   inbound_body := [] |}
                {| params := {| path := ["api"; "chat"] |} |})
          (λ _, inr {| status := 200; headers := []; body_bytes := [] |})).1 = [rq]
       ∧ Headers.get (request_headers rq) "Content-Type" =
           Some "application/json").
Proof.
  split.
  - destruct (POST_content_type (evaluate ∅)
               {| nextUrl := {| search := "" |};
                  inbound_headers := [("content-type", "text/plain")];
                  inbound_body := [] |}
               {| params := {| path := ["api"; "chat"] |} |}
               (λ _, inr {| status := 200; headers := []; body_bytes := [] |}))
      as (rq & Hlog & Hsome & _).
    exists rq. split; [exact Hlog |].
    apply Hsome; [reflexivity | discriminate].
  - destruct (POST_content_type (evaluate ∅)
               {| nextUrl := {| search := "" |};
                  inbound_headers := [("Accept", "*/*")];
                  inbound_body := [] |}
               {| params := {| path := ["api"; "chat"] |} |}
               (λ _, inr {| status := 200; headers := []; body_bytes := [] |}))
      as (rq & Hlog & _ & Hnone).
    exists rq. split; [exact Hlog |].
    apply Hnone. left; reflexivity.
Defined.

(** C5 fails as stated: an inbound Content-Type header that is present with
    an empty value is not sent on; the outbound request says
    application/json. *)
Lemma POST_empty_content_type_replaced :
  Headers.get [("Content-Type", "")] "Content-Type" = Some ""
  ∧ request_headers <$>
      (Async.run
         (POST (evaluate ∅)
               {| nextUrl := {| search := "" |};
                  inbound_headers := [("Content-Type", "")];
                  inbound_body := [] |}
               {| params := {| path := ["api"; "chat"] |} |})
         (λ _, inr {| status := 200; headers := []; body_bytes := [] |})).1 =
      [[("Content-Type", "application/json")]]
  ∧ ¬ (∀ rq,
         rq ∈ (Async.run
                 (POST (evaluate ∅)
                       {| nextUrl := {| search := "" |};
                          inbound_headers := [("Content-Type", "")];
                          inbound_body := [] |}
                       {| params := {| path := ["api"; "chat"] |} |})
                 (λ _, inr {| status := 200; headers := []; body_bytes := [] |})).1 →
         Headers.get (request_headers rq) "Content-Type" =
           Headers.get [("Content-Type", "")] "Content-Type").
Proof.
  rewrite POST_run. split; [reflexivity |]. split; [reflexivity |].
  intros H. specialize (H _ (list_elem_of_here _ _)). discriminate H.
Qed.

(** ** The relayed response *)

(** C2, as the code has it.  When the upstream status is in 200..599 and is
    not 204, 205 or 304, the response returned has the upstream status, and
    its body is the upstream body read as text and encoded again: byte for
    byte the upstream body when that is the encoding of a text with no
    leading byte order mark. *)
Theorem relay_status_and_body :
  ∀ (handler : Handler) sc req ctx (net : Network) r,
    handler = GET ∨ handler = POST →
    net <$> (Async.run (handler sc req ctx) net).1 = [inr r] →
    200 <= status r → status r <= 599 →
    status r ≠ 204 → status r ≠ 205 → status r ≠ 304 →
    ∃ resp,
      (Async.run (handler sc req ctx) net).2 = inr resp
      ∧ status resp = status r
      ∧ body_bytes resp = Utf8.encode (Utf8.decode (body_bytes r))
      ∧ ∀ t, Forall Utf8.is_scalar t → head t ≠ Some Utf8.bom →
             body_bytes r = Utf8.encode t →
             body_bytes resp = body_bytes r.
Proof.
  intros handler sc req ctx net r Hh Hnet Hlo Hhi H204 H205 H304.
  eexists. split.
  { exact (handler_returns handler sc req ctx net Hh r Hnet Hlo Hhi H204 H205 H304). }
  cbn [status body_bytes]. repeat split.
  intros t Ht Hbom ->. rewrite Utf8Facts.decode_encode by assumption.
  reflexivity.
Qed.

Lemma relay_status_and_body_witness :
  ∃ resp,
    (Async.run
       (POST (evaluate ∅)
             {| nextUrl := {| search := "" |};
                inbound_headers := [("Content-Type", "application/json")];
                inbound_body := ["{"; "}"]%byte |}
             {| params := {| path := ["api"; "auth"; "login"] |} |})
       (λ _, inr {| status := 401;
                    headers := [("content-type", "application/json")];
                    body_bytes := Utf8.encode [0x7B; 0x7D] |})).2 = inr resp
    ∧ status resp = 401
    ∧ body_bytes resp = Utf8.encode [0x7B; 0x7D].
Proof.
  destruct (relay_status_and_body POST (evaluate ∅)
              {| nextUrl := {| search := "" |};
                 inbound_headers := [("Content-Type", "application/json")];
                 inbound_body := ["{"; "}"]%byte |}
              {| params := {| path := ["api"; "auth"; "login"] |} |}
              (λ _, inr {| status := 401;
                           headers := [("content-type", "application/json")];
                           body_bytes := Utf8.encode [0x7B; 0x7D] |})
              {| status := 401;
                 headers := [("content-type", "application/json")];
                 body_bytes := Utf8.encode [0x7B; 0x7D] |})
    as (resp & Hres & Hstatus & _ & Hbody).
  - right; reflexivity.
  - reflexivity.
  - cbn [status]; lia.
  - cbn [status]; lia.
  - cbn [status]; lia.
  - cbn [status]; lia.
  - cbn [status]; lia.
  - exists resp. split; [exact Hres |]. split; [exact Hstatus |].
    apply (Hbody [0x7B; 0x7D]).
    + repeat constructor; unfold Utf8.is_scalar; lia.
    + discriminate.
    + reflexivity.
Defined.

(** C2 fails as stated: an upstream body that is not well-formed UTF-8 is
    not relayed verbatim. *)
Lemma relay_body_not_verbatim :
  (Async.run
     (GET (evaluate ∅)
          {| nextUrl := {| search := "" |};
             inbound_headers := []; inbound_body := [] |}
          {| params := {| path := ["logo.png"] |} |})
     (λ _, inr {| status := 200;
                  headers := [("Content-Type", "image/png")];
                  body_bytes := [x89; "P"; "N"; "G"]%byte |})).2 =
    inr {| status := 200;
           headers := [("Content-Type", "image/png")];
           body_bytes := [xef; xbf; xbd; "P"; "N"; "G"]%byte |}
  ∧ ¬ (∃ resp,
         (Async.run
            (GET (evaluate ∅)
                 {| nextUrl := {| search := "" |};
                    inbound_headers := []; inbound_body := [] |}
                 {| params := {| path := ["logo.png"] |} |})
            (λ _, inr {| status := 200;
                         headers := [("Content-Type", "image/png")];
                         body_bytes := [x89; "P"; "N"; "G"]%byte |})).2 = inr resp
         ∧ status resp = 200
         ∧ body_bytes resp = [x89; "P"; "N"; "G"]%byte).
Proof.
  rewrite GET_run. split; [reflexivity |].
  intros (resp & Hres & _ & Hbody).
  injection Hres as <-. discriminate Hbody.
Qed.

(** An upstream 204 is not relayed at all: the [Response] constructor
    throws, and the handler rejects. *)
Example relay_no_content_rejects :
  (Async.run
     (POST (evaluate ∅)
           {| nextUrl := {| search := "" |};
              inbound_headers := [("Content-Type", "application/json")];
              inbound_body := ["{"; "}"]%byte |}
           {| params := {| path := ["api"; "logout"] |} |})
     (λ _, inr {| status := 204; headers := []; body_bytes := [] |})).2 =
    inl (Js.TypeError "Response constructor: Invalid response status code").
Proof. rewrite POST_run. reflexivity. Qed.

(** C6, as the code has it.  The Content-Type of the response to an inbound
    POST is the upstream response's Content-Type, or application/json when
    the upstream has none or an empty one, as for GET; the inbound
    Content-Type does not enter it. *)
Theorem POST_response_content_type :
  ∀ sc req ctx (net : Network) r,
    net <$> (Async.run (POST sc req ctx) net).1 = [inr r] →
    (∀ resp,
       (Async.run (POST sc req ctx) net).2 = inr resp →
       Headers.get (headers resp) "Content-Type" =
         Some (Js.or_else (Headers.get (headers r) "Content-Type")
                          "application/json"))
    ∧ (200 <= status r → status r <= 599 →
       status r ≠ 204 → status r ≠ 205 → status r ≠ 304 →
       ∃ resp, (Async.run (POST sc req ctx) net).2 = inr resp).
Proof.
  intros sc req ctx net r Hnet. split.
  - intros resp Hres.
    rewrite (handler_returned POST sc req ctx net (or_intror eq_refl)
               r Hnet resp Hres).
    reflexivity.
  - intros Hlo Hhi H204 H205 H304. eexists.
    exact (handler_returns POST sc req ctx net (or_intror eq_refl)
             r Hnet Hlo Hhi H204 H205 H304).
Qed.

Lemma POST_response_content_type_witness :
  ∃ resp,
    (Async.run
       (POST (evaluate ∅)
             {| nextUrl := {| search := "" |};
                inbound_headers := [("Content-Type", "text/plain")];
                inbound_body := ["h"; "i"]%byte |}
             {| params := {| path := ["api"; "chat"] |} |})
       (λ _, inr {| status := 200;
                    headers := [("Content-Type", "text/html")];
                    body_bytes := ["o"; "k"]%byte |})).2 = inr resp
    ∧ Headers.get (headers resp) "Content-Type" = Some "text/html".
Proof.
  destruct (POST_response_content_type (evaluate ∅)
              {| nextUrl := {| search := "" |};
                 inbound_headers := [("Content-Type", "text/plain")];
                 inbound_body := ["h"; "i"]%byte |}
              {| params := {| path := ["api"; "chat"] |} |}
              (λ _, inr {| status := 200;
                           headers := [("Content-Type", "text/html")];
                           body_bytes := ["o"; "k"]%byte |})
              {| status := 200;
                 headers := [("Content-Type", "text/html")];
                 body_bytes := ["o"; "k"]%byte |})
    as [Htype Hreturns].
  - reflexivity.
  - destruct Hreturns as [resp Hres]; cbn [status]; try lia.
    exists resp. split; [exact Hres | apply Htype, Hres].
Defined.

(** C6 fails as stated: the response to a POST takes its Content-Type from
    the upstream response, whether the inbound request names another type
    or names none. *)
Lemma POST_response_type_not_from_inbound :
  (Async.run
     (POST (evaluate ∅)
           {| nextUrl := {| search := "" |};
              inbound_headers := [];
              inbound_body := ["h"; "i"]%byte |}
           {| params := {| path := ["api"; "chat"] |} |})
     (λ _, inr {| status := 200;
                  headers := [("Content-Type", "text/html")];
                  body_bytes := ["o"; "k"]%byte |})).2 =
    inr {| status := 200;
           headers := [("Content-Type", "text/html")];
           body_bytes := ["o"; "k"]%byte |}
  ∧ Headers.get [] "Content-Type" = None
  ∧ ¬ (∃ resp,
         (Async.run
            (POST (evaluate ∅)
                  {| nextUrl := {| search := "" |};
                     inbound_headers := [];
                     inbound_body := ["h"; "i"]%byte |}
                  {| params := {| path := ["api"; "chat"] |} |})
            (λ _, inr {| status := 200;
                         headers := [("Content-Type", "text/html")];
                         body_bytes := ["o"; "k"]%byte |})).2 = inr resp
         ∧ Headers.get (headers resp) "Content-Type" = Some "application/json").
Proof.
  rewrite POST_run. split; [reflexivity |]. split; [reflexivity |].
  intros (resp & Hres & Hct). injection Hres as <-. discriminate Hct.
Qed.

(** A response a handler returns is built from the response the upstream
    gave to the one request sent. *)
Lemma returned_from_upstream (handler : Handler) sc req ctx (net : Network) resp :
  handler = GET ∨ handler = POST →
  (Async.run (handler sc req ctx) net).2 = inr resp →
  ∃ rq r,
    (Async.run (handler sc req ctx) net).1 = [rq] ∧ net rq = inr r
    ∧ resp = {| status := status r;
                headers :=
                  [("Content-Type",
                    Js.or_else (Headers.get (headers r) "Content-Type")
                               "application/json")];
                body_bytes := Utf8.encode (Utf8.decode (body_bytes r)) |}.
Proof.
  intros Hh. destruct (handler_run handler sc req ctx net Hh) as [rq ->].
  cbn [fst snd]. destruct (net rq) as [e | r] eqn:Hnet; [discriminate |].
  intros Hres. exists rq, r. split; [reflexivity |]. split; [exact Hnet |].
  apply new_Response_inv in Hres. exact Hres.
Qed.

(** C7. When the upstream answers the request a handler sends with a
    response that has no Content-Type header, the response the handler
    returns declares application/json; and it does return one for every
    upstream status that can be relayed with a body. *)
Theorem missing_upstream_content_type_defaults :
  ∀ sc req ctx (net : Network) r,
    Headers.get (headers r) "Content-Type" = None →
    (net {| url := target sc req ctx; method := "GET";
            request_headers := []; request_body := None |} = inr r →
     (∀ resp,
        (Async.run (GET sc req ctx) net).2 = inr resp →
        Headers.get (headers resp) "Content-Type" = Some "application/json")
     ∧ (200 <= status r → status r <= 599 →
        status r ≠ 204 → status r ≠ 205 → status r ≠ 304 →
        ∃ resp,
          (Async.run (GET sc req ctx) net).2 = inr resp
          ∧ Headers.get (headers resp) "Content-Type" = Some "application/json"))
    ∧ (net {| url := target sc req ctx; method := "POST";
              request_headers :=
                [("Content-Type",
                  Js.or_else (Headers.get (inbound_headers req) "Content-Type")
                             "application/json")];
              request_body :=
                Some (Utf8.encode (Utf8.decode (inbound_body req))) |} = inr r →
       (∀ resp,
          (Async.run (POST sc req ctx) net).2 = inr resp →
          Headers.get (headers resp) "Content-Type" = Some "application/json")
       ∧ (200 <= status r → status r <= 599 →
          status r ≠ 204 → status r ≠ 205 → status r ≠ 304 →
          ∃ resp,
            (Async.run (POST sc req ctx) net).2 = inr resp
            ∧ Headers.get (headers resp) "Content-Type" = Some "application/json")).
Proof.
  intros sc req ctx net r Hnone.
  assert (∀ res,
            res = new_Response (Utf8.decode (body_bytes r)) (relayed r) →
            (∀ resp, res = inr resp →
                     Headers.get (headers resp) "Content-Type" =
                       Some "application/json")
            ∧ (200 <= status r → status r <= 599 →
               status r ≠ 204 → status r ≠ 205 → status r ≠ 304 →
               ∃ resp, res = inr resp
                       ∧ Headers.get (headers resp) "Content-Type" =
                           Some "application/json")) as Hrelay.
  { intros res ->. unfold relayed. rewrite Hnone. cbn [Js.or_else]. split.
    - intros resp Hres. apply new_Response_inv in Hres. rewrite Hres. reflexivity.
    - intros Hlo Hhi H204 H205 H304. eexists. split.
      + apply new_Response_accepts; [exact Hlo | exact Hhi |].
        apply relayable_status; assumption.
      + reflexivity. }
  split; intros Hnet; apply Hrelay.
  - rewrite GET_run. cbn [snd]. rewrite Hnet. reflexivity.
  - rewrite POST_run. cbn [snd]. rewrite Hnet. reflexivity.
Qed.

Lemma missing_upstream_content_type_defaults_witness :
  (∃ resp,
     (Async.run
        (GET (evaluate ∅)
             {| nextUrl := {| search := "" |};
                inbound_headers := []; inbound_body := [] |}
             {| params := {| path := ["api"; "chatbots"] |} |})
        (λ _, inr {| status := 404;
                     headers := [("Server", "uvicorn")];
                     body_bytes := [] |})).2 = inr resp
     ∧ Headers.get (headers resp) "Content-Type" = Some "application/json")
  ∧ (∃ resp,
       (Async.run
          (POST (evaluate ∅)
                {| nextUrl := {| search := "" |};
                   inbound_headers := [("Content-Type", "text/plain")];
                   inbound_body := ["h"; "i"]%byte |}
                {| params := {| path := ["api"; "chat"] |} |})
          (λ _, inr {| status := 200;
                       headers := [("Server", "uvicorn")];
                       body_bytes := ["o"; "k"]%byte |})).2 = inr resp
       ∧ Headers.get (headers resp) "Content-Type" = Some "application/json").
Proof.
  split.
  - destruct (missing_upstream_content_type_defaults (evaluate ∅)
                {| nextUrl := {| search := "" |};
                   inbound_headers := []; inbound_body := [] |}
                {| params := {| path := ["api"; "chatbots"] |} |}
                (λ _, inr {| status := 404;
                             headers := [("Server", "uvicorn")];
                             body_bytes := [] |})
                {| status := 404;
                   headers := [("Server", "uvicorn")];
                   body_bytes := [] |} eq_refl) as [Hget _].
    destruct (Hget eq_refl) as [_ Hreturns].
    apply Hreturns; cbn [status]; lia.
  - destruct (missing_upstream_content_type_defaults (evaluate ∅)
                {| nextUrl := {| search := "" |};
                   inbound_headers := [("Content-Type", "text/plain")];
                   inbound_body := ["h"; "i"]%byte |}
                {| params := {| path := ["api"; "chat"] |} |}
                (λ _, inr {| status := 200;
                             headers := [("Server", "uvicorn")];
                             body_bytes := ["o"; "k"]%byte |})
                {| status := 200;
                   headers := [("Server", "uvicorn")];
                   body_bytes := ["o"; "k"]%byte |} eq_refl) as [_ Hpost].
    destruct (Hpost eq_refl) as [_ Hreturns].
    apply Hreturns; cbn [status]; lia.
Defined.

(** C10. Every response a handler returns carries exactly one header,
    Content-Type: no other header of the upstream response is on it.  A
    response is returned whenever the upstream answers the request sent
    with a status that can be relayed with a body, and its one header is
    then the upstream Content-Type, or application/json. *)
Theorem response_has_one_header :
  ∀ sc req ctx (net : Network),
    (∀ (handler : Handler) resp,
       handler = GET ∨ handler = POST →
       (Async.run (handler sc req ctx) net).2 = inr resp →
       (∃ v, headers resp = [("Content-Type", v)])
       ∧ ∀ name, Headers.same_name name "Content-Type" = false →
                 Headers.get (headers resp) name = None)
    ∧ (∀ r,
         net {| url := target sc req ctx; method := "GET";
                request_headers := []; request_body := None |} = inr r →
         200 <= status r → status r <= 599 →
         status r ≠ 204 → status r ≠ 205 → status r ≠ 304 →
         ∃ resp,
           (Async.run (GET sc req ctx) net).2 = inr resp
           ∧ headers resp =
               [("Content-Type",
                 Js.or_else (Headers.get (headers r) "Content-Type")
                            "application/json")])
    ∧ (∀ r,
         net {| url := target sc req ctx; method := "POST";
                request_headers :=
                  [("Content-Type",
                    Js.or_else (Headers.get (inbound_headers req) "Content-Type")
                               "application/json")];
                request_body :=
                  Some (Utf8.encode (Utf8.decode (inbound_body req))) |} = inr r →
         200 <= status r → status r <= 599 →
         status r ≠ 204 → status r ≠ 205 → status r ≠ 304 →
         ∃ resp,
           (Async.run (POST sc req ctx) net).2 = inr resp
           ∧ headers resp =
               [("Content-Type",
                 Js.or_else (Headers.get (headers r) "Content-Type")
                            "application/json")]).
Proof.
  intros sc req ctx net. split; [| split].
  - intros handler resp Hh Hres.
    destruct (returned_from_upstream handler sc req ctx net resp Hh Hres)
      as (rq & r & _ & _ & ->).
    cbn [headers]. split; [eexists; reflexivity |].
    intros name Hname. apply get_other_name, Hname.
  - intros r Hnet Hlo Hhi H204 H205 H304. rewrite GET_run. cbn [snd].
    rewrite Hnet. eexists. split.
    + apply new_Response_accepts; [exact Hlo | exact Hhi |].
      apply relayable_status; assumption.
    + reflexivity.
  - intros r Hnet Hlo Hhi H204 H205 H304. rewrite POST_run. cbn [snd].
    rewrite Hnet. eexists. split.
    + apply new_Response_accepts; [exact Hlo | exact Hhi |].
      apply relayable_status; assumption.
    + reflexivity.
Qed.

Lemma response_has_one_header_witness :
  (∃ resp,
     (Async.run
        (GET (evaluate ∅)
             {| nextUrl := {| search := "" |};
                inbound_headers := []; inbound_body := [] |}
             {| params := {| path := ["api"; "chatbots"] |} |})
        (λ _, inr {| status := 200;
                     headers := [("Content-Type", "application/json");
                                 ("Set-Cookie", "session=1");
                                 ("Cache-Control", "no-store")];
                     body_bytes := ["["; "]"]%byte |})).2 = inr resp
     ∧ headers resp = [("Content-Type", "application/json")]
     ∧ Headers.get (headers resp) "Set-Cookie" = None
     ∧ Headers.get (headers resp) "Cache-Control" = None)
  ∧ (∃ resp,
       (Async.run
          (POST (evaluate ∅)
                {| nextUrl := {| search := "" |};
                   inbound_headers := [("Content-Type", "application/json")];
                   inbound_body := ["{"; "}"]%byte |}
                {| params := {| path := ["api"; "auth"; "login"] |} |})
          (λ _, inr {| status := 401;
                       headers := [("WWW-Authenticate", "Bearer");
                                   ("Content-Type", "text/plain")];
                       body_bytes := ["n"; "o"]%byte |})).2 = inr resp
       ∧ headers resp = [("Content-Type", "text/plain")]
       ∧ Headers.get (headers resp) "WWW-Authenticate" = None).
Proof.
  split.
  - destruct (response_has_one_header (evaluate ∅)
                {| nextUrl := {| search := "" |};
                   inbound_headers := []; inbound_body := [] |}
                {| params := {| path := ["api"; "chatbots"] |} |}
                (λ _, inr {| status := 200;
                             headers := [("Content-Type", "application/json");
                                         ("Set-Cookie", "session=1");
                                         ("Cache-Control", "no-store")];
                             body_bytes := ["["; "]"]%byte |}))
      as (Hone & Hget & _).
    destruct (Hget _ eq_refl) as (resp & Hres & Hheaders); cbn [status]; try lia.
    exists resp. split; [exact Hres |]. split; [exact Hheaders |].
    destruct (Hone GET resp (or_introl eq_refl) Hres) as [_ Hother].
    split; apply Hother; reflexivity.
  - destruct (response_has_one_header (evaluate ∅)
                {| nextUrl := {| search := "" |};
                   inbound_headers := [("Content-Type", "application/json")];
                   inbound_body := ["{"; "}"]%byte |}
                {| params := {| path := ["api"; "auth"; "login"] |} |}
                (λ _, inr {| status := 401;
                             headers := [("WWW-Authenticate", "Bearer");
                                         ("Content-Type", "text/plain")];
                             body_bytes := ["n"; "o"]%byte |}))
      as (Hone & _ & Hpost).
    destruct (Hpost _ eq_refl) as (resp & Hres & Hheaders); cbn [status]; try lia.
    exists resp. split; [exact Hres |]. split; [exact Hheaders |].
    destruct (Hone POST resp (or_intror eq_refl) Hres) as [_ Hother].
    apply Hother; reflexivity.
Defined.

(** ** Failure of the upstream call *)



(** ** The base URL *)

Lemma target_has_base sc req ctx :
  ∃ rest, target sc req ctx = BACKEND sc +:+ "/" +:+ rest.
Proof. eexists. reflexivity. Qed.

(** No event changes the module scope; every call in flight is a call of an
    exported handler with that scope; every call that has ended sent its
    requests to the base URL of that scope. *)
Lemma step_keeps_invariant (sc : Scope) (p : Server.Process) (ev : Server.Event) :
  Server.scope p = sc →
  Forall (λ call, ∃ (handler : Handler) req ctx,
            (handler = GET ∨ handler = POST) ∧ call = handler sc req ctx)
         (Server.in_flight p) →
  Forall (λ ex : list Request * (Js.Error + Response),
            Forall (λ rq, ∃ rest, url rq = BACKEND sc +:+ "/" +:+ rest) ex.1)
         (Server.settled p) →
  Server.scope (Server.step p ev) = sc
  ∧ Forall (λ call, ∃ (handler : Handler) req ctx,
              (handler = GET ∨ handler = POST) ∧ call = handler sc req ctx)
           (Server.in_flight (Server.step p ev))
  ∧ Forall (λ ex : list Request * (Js.Error + Response),
              Forall (λ rq, ∃ rest, url rq = BACKEND sc +:+ "/" +:+ rest) ex.1)
           (Server.settled (Server.step p ev)).
Proof.
  intros Hscope Hflight Hsettled.
  destruct ev as [name value | name | method req ctx | i net]; cbn [Server.step].
  - repeat split; assumption.
  - repeat split; assumption.
  - unfold Server.dispatch.
    destruct (String.eqb method "GET");
      [| destruct (String.eqb method "POST")];
      cbn [Server.scope Server.in_flight Server.settled];
      repeat split; try assumption;
      apply Forall_app; (split; [exact Hflight |]);
      apply Forall_singleton; rewrite Hscope;
      eexists _, req, ctx; (split; [| reflexivity]); auto.
  - destruct (Server.in_flight p !! i) as [call |] eqn:Hcall;
      [| repeat split; assumption].
    cbn [Server.scope Server.in_flight Server.settled].
    split; [exact Hscope |]. split; [apply Forall_delete, Hflight |].
    apply Forall_app. split; [exact Hsettled |]. apply Forall_singleton.
    destruct (Forall_lookup_1 _ _ _ _ Hflight Hcall)
      as (handler & req & ctx & [-> | ->] & ->).
    + rewrite GET_run. repeat constructor. apply target_has_base.
    + rewrite POST_run. repeat constructor. apply target_has_base.
Qed.

Lemma serve_keeps_invariant (sc : Scope) (evs : list Server.Event) :
  ∀ p : Server.Process,
    Server.scope p = sc →
    Forall (λ call, ∃ (handler : Handler) req ctx,
              (handler = GET ∨ handler = POST) ∧ call = handler sc req ctx)
           (Server.in_flight p) →
    Forall (λ ex : list Request * (Js.Error + Response),
              Forall (λ rq, ∃ rest, url rq = BACKEND sc +:+ "/" +:+ rest) ex.1)
           (Server.settled p) →
    Server.scope (Server.serve p evs) = sc
    ∧ Forall (λ ex : list Request * (Js.Error + Response),
                Forall (λ rq, ∃ rest, url rq = BACKEND sc +:+ "/" +:+ rest) ex.1)
             (Server.settled (Server.serve p evs)).
Proof.
  induction evs as [| ev evs IH]; intros p Hscope Hflight Hsettled.
  - split; assumption.
  - destruct (step_keeps_invariant sc p ev Hscope Hflight Hsettled)
      as (Hscope' & Hflight' & Hsettled').
    exact (IH (Server.step p ev) Hscope' Hflight' Hsettled').
Qed.

(** C9. The base URL is read from the environment once, when the module is
    evaluated at startup: it is the value of the variable when that is set
    and not empty, and http://localhost:8000 when the variable is unset.
    Whatever happens to the environment afterwards, and however the calls
    of the handlers interleave, the module scope stays what it was at
    startup and every request sent upstream starts with the base URL read
    then. *)
Theorem BACKEND_read_once_at_startup :
  (∀ (env0 : gmap string string) (v : string),
     env0 !! "NEXT_PUBLIC_BACKEND_URL" = Some v → v ≠ "" →
     BACKEND (Server.scope (Server.boot env0)) = v)
  ∧ (∀ env0 : gmap string string,
       env0 !! "NEXT_PUBLIC_BACKEND_URL" = None →
       BACKEND (Server.scope (Server.boot env0)) = "http://localhost:8000")
  ∧ (∀ (env0 : gmap string string) (evs : list Server.Event),
       Server.scope (Server.serve (Server.boot env0) evs) =
         Server.scope (Server.boot env0)
       ∧ Forall (λ ex : list Request * (Js.Error + Response),
                   Forall (λ rq, ∃ rest,
                             url rq =
                               BACKEND (Server.scope (Server.boot env0))
                               +:+ "/" +:+ rest) ex.1)
                (Server.settled (Server.serve (Server.boot env0) evs))).
Proof.
  split; [| split].
  - intros env0 v Hset Hv. cbn [Server.boot Server.scope evaluate BACKEND].
    rewrite Hset. destruct v; [contradiction | reflexivity].
  - intros env0 Hunset. cbn [Server.boot Server.scope evaluate BACKEND].
    rewrite Hunset. reflexivity.
  - intros env0 evs.
    apply (serve_keeps_invariant _ evs (Server.boot env0));
      [reflexivity | constructor | constructor].
Qed.

Lemma BACKEND_read_once_at_startup_witness :
  BACKEND (Server.scope
             (Server.boot {["NEXT_PUBLIC_BACKEND_URL" := "http://api.test:9000"]})) =
    "http://api.test:9000"
  ∧ BACKEND (Server.scope (Server.boot {["PORT" := "3000"]})) =
      "http://localhost:8000".
Proof.
  split.
  - apply (proj1 BACKEND_read_once_at_startup
             {["NEXT_PUBLIC_BACKEND_URL" := "http://api.test:9000"]}
             "http://api.test:9000").
    + reflexivity.
    + discriminate.
  - apply (proj1 (proj2 BACKEND_read_once_at_startup) {["PORT" := "3000"]}).
    reflexivity.
Defined.

(** The variable is set after startup, while one call is in flight and
    before another starts: both calls go to the base URL read at startup,
    whichever ends first. *)
Example environment_change_after_startup_is_not_seen (net : Network) :
  (λ ex : list Request * (Js.Error + Response), url <$> ex.1) <$>
    Server.settled
      (Server.serve (Server.boot ∅)
         [Server.Inbound "POST"
            {| nextUrl := {| search := "" |};
               inbound_headers := []; inbound_body := ["{"; "}"]%byte |}
            {| params := {| path := ["api"; "chat"] |} |};
          Server.SetEnv "NEXT_PUBLIC_BACKEND_URL" "http://other.test";
          Server.Inbound "GET"
            {| nextUrl := {| search := "?page=2" |};
               inbound_headers := []; inbound_body := [] |}
            {| params := {| path := ["api"; "chatbots"] |} |};
          Server.Settle 1 net;
          Server.Settle 0 net]) =
  [["http://localhost:8000/api/chatbots?page=2"];
   ["http://localhost:8000/api/chat"]].
Proof.
  cbn -[GET POST Async.run]. rewrite GET_run, POST_run. reflexivity.
Qed.

(** * Further properties of the route *)

(** ** Whatever is decoded is a text of scalar values *)

Module Utf8Sound.
Import Utf8 Utf8Facts.

Lemma replacement_scalar : is_scalar replacement.
Proof. right. unfold replacement. lia. Qed.

Lemma start_sound : pending_sound start.
Proof. left. reflexivity. Qed.

Ltac open_pending :=
  right; unfold pending_low, pending_high, pending_span;
  cbn [code_point bytes_needed lower upper N.eqb Pos.eqb].

Lemma lead_sound (b : N) :
  Forall is_scalar (lead b).1 ∧ pending_sound (lead b).2.
Proof.
  assert (b <= 0x7F ∨ (0x7F < b ∧ b < 0xC2) ∨ (0xC2 <= b ∧ b <= 0xDF)
          ∨ (0xE0 <= b ∧ b <= 0xEF) ∨ (0xF0 <= b ∧ b <= 0xF4) ∨ 0xF4 < b)
    as [H | [H | [H | [H | [H | H]]]]] by lia;
    unfold lead; decide_tests; cbn [fst snd].
  - split; [| apply start_sound]. apply Forall_singleton. left. lia.
  - split; [| apply start_sound]. apply Forall_singleton, replacement_scalar.
  - split; [constructor |]. open_pending.
    change 0x1F with (N.ones 5). rewrite N.land_ones. repeat split; lia.
  - split; [constructor |]. open_pending.
    change 0xF with (N.ones 4). rewrite N.land_ones.
    destruct (N.eqb_spec b 0xE0), (N.eqb_spec b 0xED); repeat split; lia.
  - split; [constructor |]. open_pending.
    change 0x7 with (N.ones 3). rewrite N.land_ones.
    destruct (N.eqb_spec b 0xF0), (N.eqb_spec b 0xF4); repeat split; lia.
  - split; [| apply start_sound]. apply Forall_singleton, replacement_scalar.
Qed.

Lemma handle_sound (s : state) (b : N) :
  pending_sound s →
  Forall is_scalar (handle s b).1 ∧ pending_sound (handle s b).2.
Proof.
  intros [Hs | (Hk1 & Hk3 & Hlo & Hhi & Hrange)]; unfold handle.
  { rewrite Hs. apply lead_sound. }
  destruct (N.leb_spec (lower s) b) as [Hl | Hl],
           (N.leb_spec b (upper s)) as [Hu | Hu]; cbn [andb].
  2-4: destruct (lead_sound b) as [Hout Hnext];
       destruct (lead b) as [out s']; cbn [fst snd] in *;
       destruct (bytes_needed s =? 0); [split; assumption |];
       split; [constructor; [apply replacement_scalar | exact Hout] | exact Hnext].
  rewrite assemble.
  unfold pending_low, pending_high, pending_span in Hrange.
  assert (bytes_needed s = 1 ∨ bytes_needed s = 2 ∨ bytes_needed s = 3)
    as [K | [K | K]] by lia; rewrite K in *.
  - change (1 =? 0) with false. change (1 =? 1) with true in *.
    cbv iota in Hrange. cbn [fst snd]. split; [| apply start_sound].
    apply Forall_singleton. unfold is_scalar. lia.
  - change (2 =? 0) with false. change (2 =? 1) with false in *.
    change (2 =? 2) with true in *. change (2 - 1) with 1.
    cbv iota in Hrange. cbn [fst snd]. split; [constructor |]. open_pending.
    repeat split; lia.
  - change (3 =? 0) with false. change (3 =? 1) with false in *.
    change (3 =? 2) with false in *. change (3 - 1) with 2.
    cbv iota in Hrange. cbn [fst snd]. split; [constructor |]. open_pending.
    repeat split; lia.
Qed.

Lemma process_scalar (bs : list N) : ∀ s,
  pending_sound s → Forall is_scalar (process s bs).
Proof.
  induction bs as [| b bs IH]; intros s Hs.
  - cbn [process]. destruct (bytes_needed s =? 0); [constructor |].
    apply Forall_singleton, replacement_scalar.
  - rewrite process_cons. destruct (handle_sound s b Hs) as [Hout Hnext].
    apply Forall_app. split; [exact Hout | apply IH, Hnext].
Qed.

(** [text()] never yields a surrogate or a value above U+10FFFF. *)
Lemma decode_scalar (bs : list byte) : Forall is_scalar (decode bs).
Proof. apply process_scalar, start_sound. Qed.

End Utf8Sound.

(** ** The upstream request, continued *)

(** X1. An inbound POST sends exactly one upstream request: a POST to the
    URL a GET of the same path and query would go to, with one header and
    the body read as text. *)
Theorem POST_sends_one_request :
  ∀ sc req ctx net,
    (Async.run (POST sc req ctx) net).1 =
      [{| url := BACKEND sc +:+ "/" +:+ Js.join "/" (path (params ctx))
                   +:+ search (nextUrl req);
          method := "POST";
          request_headers :=
            [("Content-Type",
              Js.or_else (Headers.get (inbound_headers req) "Content-Type")
                         "application/json")];
          request_body :=
            Some (Utf8.encode (Utf8.decode (inbound_body req))) |}]
    ∧ url <$> (Async.run (POST sc req ctx) net).1 =
        url <$> (Async.run (GET sc req ctx) net).1.
Proof.
  intros. rewrite POST_run, GET_run. split; reflexivity.
Qed.

(** X2. Whatever bytes come in, the body of the outbound POST is the
    encoding of a text of scalar values: nothing ill-formed is sent on. *)
Theorem POST_body_is_well_formed :
  ∀ sc req ctx net,
    ∃ t, Forall Utf8.is_scalar t
       ∧ request_body <$> (Async.run (POST sc req ctx) net).1 =
           [Some (Utf8.encode t)].
Proof.
  intros. exists (Utf8.decode (inbound_body req)).
  split; [apply Utf8Sound.decode_scalar |].
  rewrite POST_run. reflexivity.
Qed.

(** X3. A body that has been through the forwarder once goes through it
    again unchanged, provided its text does not begin with U+FEFF. *)
Theorem POST_body_settles :
  ∀ sc req ctx net (bs : list byte),
    head (Utf8.decode bs) ≠ Some Utf8.bom →
    inbound_body req = Utf8.encode (Utf8.decode bs) →
    request_body <$> (Async.run (POST sc req ctx) net).1 =
      [Some (inbound_body req)].
Proof.
  intros sc req ctx net bs Hbom Hbody. rewrite POST_run.
  cbn [fmap list_fmap request_body]. rewrite Hbody.
  rewrite Utf8Facts.decode_encode;
    [reflexivity | apply Utf8Sound.decode_scalar | exact Hbom].
Qed.

Lemma POST_body_settles_witness :
  request_body <$>
    (Async.run
       (POST (evaluate ∅)
             {| nextUrl := {| search := "" |};
                inbound_headers := [];
                inbound_body := Utf8.encode (Utf8.decode [xff; "a"]%byte) |}
             {| params := {| path := ["upload"] |} |})
       (λ _, inr {| status := 200; headers := []; body_bytes := [] |})).1 =
    [Some (Utf8.encode (Utf8.decode [xff; "a"]%byte))].
Proof.
  apply (POST_body_settles (evaluate ∅)
           {| nextUrl := {| search := "" |};
              inbound_headers := [];
              inbound_body := Utf8.encode (Utf8.decode [xff; "a"]%byte) |}
           {| params := {| path := ["upload"] |} |}
           (λ _, inr {| status := 200; headers := []; body_bytes := [] |})
           [xff; "a"]%byte).
  - discriminate.
  - reflexivity.
Defined.

(** X4. The same inbound request read twice: the handlers look at the query
    string only, and POST also at the Content-Type and at the text of the
    body.  Requests that agree on these are forwarded and answered alike. *)
Theorem handlers_read_little :
  ∀ sc req req' ctx net,
    search (nextUrl req) = search (nextUrl req') →
    Async.run (GET sc req ctx) net = Async.run (GET sc req' ctx) net
    ∧ (Js.or_else (Headers.get (inbound_headers req) "Content-Type")
                  "application/json" =
       Js.or_else (Headers.get (inbound_headers req') "Content-Type")
                  "application/json" →
       Utf8.decode (inbound_body req) = Utf8.decode (inbound_body req') →
       Async.run (POST sc req ctx) net = Async.run (POST sc req' ctx) net).
Proof.
  intros sc req req' ctx net Hsearch. split.
  - rewrite !GET_run. unfold target. rewrite Hsearch. reflexivity.
  - intros Htype Htext. rewrite !POST_run. unfold target.
    rewrite Hsearch, Htype, Htext. reflexivity.
Qed.

Lemma handlers_read_little_witness :
  Async.run
    (GET (evaluate ∅)
         {| nextUrl := {| search := "?page=2" |};
            inbound_headers := [("Cookie", "session=1")];
            inbound_body := ["x"]%byte |}
         {| params := {| path := ["api"; "chatbots"] |} |})
    (λ _, inr {| status := 200; headers := []; body_bytes := [] |}) =
  Async.run
    (GET (evaluate ∅)
         {| nextUrl := {| search := "?page=2" |};
            inbound_headers := []; inbound_body := [] |}
         {| params := {| path := ["api"; "chatbots"] |} |})
    (λ _, inr {| status := 200; headers := []; body_bytes := [] |})
  ∧ Async.run
      (POST (evaluate ∅)
            {| nextUrl := {| search := "" |};
               inbound_headers := [("content-type", "text/plain")];
               inbound_body := [xef; xbb; xbf; "a"]%byte |}
            {| params := {| path := ["api"; "chat"] |} |})
      (λ _, inr {| status := 200; headers := []; body_bytes := [] |}) =
    Async.run
      (POST (evaluate ∅)
            {| nextUrl := {| search := "" |};
               inbound_headers := [("Content-Type", "text/plain");
                                   ("Cookie", "session=1")];
               inbound_body := ["a"]%byte |}
            {| params := {| path := ["api"; "chat"] |} |})
      (λ _, inr {| status := 200; headers := []; body_bytes := [] |}).
Proof.
  split.
  - apply (handlers_read_little (evaluate ∅)
             {| nextUrl := {| search := "?page=2" |};
                inbound_headers := [("Cookie", "session=1")];
                inbound_body := ["x"]%byte |}
             {| nextUrl := {| search := "?page=2" |};
                inbound_headers := []; inbound_body := [] |}
             {| params := {| path := ["api"; "chatbots"] |} |}
             (λ _, inr {| status := 200; headers := []; body_bytes := [] |})
             eq_refl).
  - apply (handlers_read_little (evaluate ∅)
             {| nextUrl := {| search := "" |};
                inbound_headers := [("content-type", "text/plain")];
                inbound_body := [xef; xbb; xbf; "a"]%byte |}
             {| nextUrl := {| search := "" |};
                inbound_headers := [("Content-Type", "text/plain");
                                    ("Cookie", "session=1")];
                inbound_body := ["a"]%byte |}
             {| params := {| path := ["api"; "chat"] |} |}
             (λ _, inr {| status := 200; headers := []; body_bytes := [] |})
             eq_refl); reflexivity.
Defined.

(** ** The relayed response, continued *)

Lemma new_Response_out_of_range (b : list N) (init : ResponseInit) :
  init_status init < 200 ∨ 599 < init_status init →
  ∃ msg, new_Response b init = inl (Js.RangeError msg).
Proof.
  intros Hs. unfold new_Response.
  destruct (N.ltb_spec (init_status init) 200), (N.ltb_spec 599 (init_status init));
    cbn [orb]; try (eexists; reflexivity). lia.
Qed.

Lemma new_Response_null_body (b : list N) (init : ResponseInit) :
  init_status init = 204 ∨ init_status init = 205 ∨ init_status init = 304 →
  ∃ msg, new_Response b init = inl (Js.TypeError msg).
Proof.
  intros Hs. unfold new_Response.
  destruct (N.ltb_spec (init_status init) 200), (N.ltb_spec 599 (init_status init));
    cbn [orb]; try lia.
  destruct Hs as [-> | [-> | ->]]; eexists; reflexivity.
Qed.



(** X6. When the upstream status cannot be relayed, the upstream request
    has been sent all the same and the handler rejects: with a RangeError
    for a status outside 200..599, with a TypeError for 204, 205 and 304. *)
Theorem unrelayable_status_rejects :
  ∀ (handler : Handler) sc req ctx (net : Network) r,
    handler = GET ∨ handler = POST →
    net <$> (Async.run (handler sc req ctx) net).1 = [inr r] →
    length (Async.run (handler sc req ctx) net).1 = 1%nat
    ∧ (status r < 200 ∨ 599 < status r →
       ∃ msg, (Async.run (handler sc req ctx) net).2 = inl (Js.RangeError msg))
    ∧ (status r = 204 ∨ status r = 205 ∨ status r = 304 →
       ∃ msg, (Async.run (handler sc req ctx) net).2 = inl (Js.TypeError msg)).
Proof.
  intros handler sc req ctx net r Hh Hnet.
  rewrite (handler_relays handler sc req ctx net Hh r Hnet).
  split; [| split].
  - destruct (handler_run handler sc req ctx net Hh) as [rq ->]. reflexivity.
  - intros Hs. apply (new_Response_out_of_range _ (relayed r)). exact Hs.
  - intros Hs. apply (new_Response_null_body _ (relayed r)). exact Hs.
Qed.

Lemma unrelayable_status_rejects_witness :
  (∃ msg,
     (Async.run
        (POST (evaluate ∅)
              {| nextUrl := {| search := "" |};
                 inbound_headers := []; inbound_body := ["{"; "}"]%byte |}
              {| params := {| path := ["api"; "logout"] |} |})
        (λ _, inr {| status := 204; headers := []; body_bytes := [] |})).2 =
     inl (Js.TypeError msg))
  ∧ (∃ msg,
       (Async.run
          (GET (evaluate ∅)
               {| nextUrl := {| search := "" |};
                  inbound_headers := []; inbound_body := [] |}
               {| params := {| path := ["api"; "chatbots"] |} |})
          (λ _, inr {| status := 999; headers := []; body_bytes := [] |})).2 =
       inl (Js.RangeError msg)).
Proof.
  split.
  - apply (unrelayable_status_rejects POST (evaluate ∅)
             {| nextUrl := {| search := "" |};
                inbound_headers := []; inbound_body := ["{"; "}"]%byte |}
             {| params := {| path := ["api"; "logout"] |} |}
             (λ _, inr {| status := 204; headers := []; body_bytes := [] |})
             {| status := 204; headers := []; body_bytes := [] |}
             (or_intror eq_refl) eq_refl).
    left; reflexivity.
  - apply (unrelayable_status_rejects GET (evaluate ∅)
             {| nextUrl := {| search := "" |};
                inbound_headers := []; inbound_body := [] |}
             {| params := {| path := ["api"; "chatbots"] |} |}
             (λ _, inr {| status := 999; headers := []; body_bytes := [] |})
             {| status := 999; headers := []; body_bytes := [] |}
             (or_introl eq_refl) eq_refl).
    right; cbn [status]; lia.
Defined.



(** X8. Whatever the upstream sent, the body of a response a handler
    returns is the encoding of a text of scalar values. *)
Theorem relayed_body_is_well_formed :
  ∀ (handler : Handler) sc req ctx (net : Network) r resp,
    handler = GET ∨ handler = POST →
    net <$> (Async.run (handler sc req ctx) net).1 = [inr r] →
    (Async.run (handler sc req ctx) net).2 = inr resp →
    ∃ t, Forall Utf8.is_scalar t ∧ body_bytes resp = Utf8.encode t.
Proof.
  intros handler sc req ctx net r resp Hh Hnet Hres.
  rewrite (handler_returned handler sc req ctx net Hh r Hnet resp Hres).
  exists (Utf8.decode (body_bytes r)).
  split; [apply Utf8Sound.decode_scalar | reflexivity].
Qed.

Lemma relayed_body_is_well_formed_witness :
  ∃ t, Forall Utf8.is_scalar t
     ∧ body_bytes {| status := 200;
                     headers := [("Content-Type", "image/png")];
                     body_bytes := [xef; xbf; xbd; "P"; "N"; "G"]%byte |} =
       Utf8.encode t.
Proof.
  apply (relayed_body_is_well_formed GET (evaluate ∅)
           {| nextUrl := {| search := "" |};
              inbound_headers := []; inbound_body := [] |}
           {| params := {| path := ["logo.png"] |} |}
           (λ _, inr {| status := 200;
                        headers := [("Content-Type", "image/png")];
                        body_bytes := [x89; "P"; "N"; "G"]%byte |})
           {| status := 200;
              headers := [("Content-Type", "image/png")];
              body_bytes := [x89; "P"; "N"; "G"]%byte |}
           {| status := 200;
              headers := [("Content-Type", "image/png")];
              body_bytes := [xef; xbf; xbd; "P"; "N"; "G"]%byte |}
           (or_introl eq_refl) eq_refl eq_refl).
Defined.

(** ** The base URL, continued *)

(** X9. The base URL is the value of the variable whenever that value is
    not empty; a variable set to the empty string counts as unset; so the
    base URL is never empty. *)
Theorem BACKEND_from_environment :
  ∀ env : gmap string string,
    (∀ s, env !! "NEXT_PUBLIC_BACKEND_URL" = Some s → s ≠ "" →
          BACKEND (evaluate env) = s)
    ∧ (env !! "NEXT_PUBLIC_BACKEND_URL" = Some "" →
       BACKEND (evaluate env) = "http://localhost:8000")
    ∧ BACKEND (evaluate env) ≠ "".
Proof.
  intros env. cbn [evaluate BACKEND].
  destruct (env !! "NEXT_PUBLIC_BACKEND_URL") as [[| c s] |]; cbn [Js.or_else].
  - repeat split; [intros s [= <-]; contradiction | discriminate].
  - repeat split; [intros s' [= <-] _; reflexivity | discriminate | discriminate].
  - repeat split; discriminate.
Qed.

Lemma BACKEND_from_environment_witness :
  BACKEND (evaluate {["NEXT_PUBLIC_BACKEND_URL" := "https://api.example.test/v1/"]}) =
    "https://api.example.test/v1/"
  ∧ BACKEND (evaluate {["NEXT_PUBLIC_BACKEND_URL" := ""]}) =
      "http://localhost:8000".
Proof.
  split.
  - apply (proj1 (BACKEND_from_environment
                    {["NEXT_PUBLIC_BACKEND_URL" := "https://api.example.test/v1/"]})
                 "https://api.example.test/v1/");
      [reflexivity | discriminate].
  - apply (proj1 (proj2 (BACKEND_from_environment
                           {["NEXT_PUBLIC_BACKEND_URL" := ""]}))).
    reflexivity.
Defined.

Lemma append_assoc (a b c : string) : (a +:+ b) +:+ c = a +:+ (b +:+ c).
Proof.
  induction a as [| x a IH]; [reflexivity |].
  change (String x ((a +:+ b) +:+ c) = String x (a +:+ (b +:+ c))).
  f_equal. exact IH.
Qed.

Lemma join_cons (sep x : string) (xs : list string) :
  xs ≠ [] → Js.join sep (x :: xs) = x +:+ sep +:+ Js.join sep xs.
Proof. destruct xs; [contradiction | reflexivity]. Qed.

(** X10. A base URL that ends in a path acts like leading segments: with at
    least one captured segment, base/seg as the base URL gives the URL that
    base gives with seg put before the captured segments. *)
Theorem base_path_acts_as_segment :
  ∀ (base seg : string) req ctx,
    path (params ctx) ≠ [] →
    target {| BACKEND := base +:+ "/" +:+ seg |} req ctx =
      target {| BACKEND := base |} req
             {| params := {| path := seg :: path (params ctx) |} |}.
Proof.
  intros base seg req ctx Hpath. unfold target. cbn [BACKEND path params].
  rewrite join_cons by exact Hpath. rewrite !append_assoc. reflexivity.
Qed.

Lemma base_path_acts_as_segment_witness :
  target {| BACKEND := "http://upstream" +:+ "/" +:+ "v1" |}
         {| nextUrl := {| search := "?x=1" |};
            inbound_headers := []; inbound_body := [] |}
         {| params := {| path := ["api"; "chat"] |} |} =
  target {| BACKEND := "http://upstream" |}
         {| nextUrl := {| search := "?x=1" |};
            inbound_headers := []; inbound_body := [] |}
         {| params := {| path := ["v1"; "api"; "chat"] |} |}.
Proof.
  apply (base_path_acts_as_segment "http://upstream" "v1"
           {| nextUrl := {| search := "?x=1" |};
              inbound_headers := []; inbound_body := [] |}
           {| params := {| path := ["api"; "chat"] |} |}).
  discriminate.
Defined.

Example no_segment_leaves_a_trailing_slash :
  target {| BACKEND := "http://upstream/v1" |}
         {| nextUrl := {| search := "" |};
            inbound_headers := []; inbound_body := [] |}
         {| params := {| path := [] |} |} = "http://upstream/v1/".
Proof. reflexivity. Qed.

(** ** The size of a forwarded body *)

Module Utf8Size.
Import Utf8 Utf8Facts.

Lemma encode_point_length (c : N) : (length (encode_point c) <= 4)%nat.
Proof.
  unfold encode_point.
  destruct (c <=? 0x7F); [| destruct (c <=? 0x7FF); [| destruct (c <=? 0xFFFF)]];
    cbn [length]; lia.
Qed.

Lemma encoded_length_app (t u : list N) :
  length (concat (map encode_point (t ++ u))) =
    (length (concat (map encode_point t)) + length (concat (map encode_point u)))%nat.
Proof. rewrite map_app, concat_app, length_app. reflexivity. Qed.

Lemma encoded_length_replacement :
  length (concat (map encode_point [replacement])) = 3%nat.
Proof. reflexivity. Qed.

Lemma lead_cost (b : N) :
  (length (concat (map encode_point (lead b).1))
   + (if (bytes_needed (lead b).2 =? 0)%N then 0 else 3) <= 3)%nat.
Proof.
  unfold lead.
  destruct (N.leb_spec b 0x7F) as [H | H].
  { cbn [fst snd map concat app]. unfold encode_point.
    rewrite (proj2 (N.leb_le b 0x7F)) by exact H. cbn. lia. }
  destruct ((0xC2 <=? b) && (b <=? 0xDF)); [cbn; lia |].
  destruct ((0xE0 <=? b) && (b <=? 0xEF)); [cbn; lia |].
  destruct ((0xF0 <=? b) && (b <=? 0xF4)); cbn; lia.
Qed.

Lemma handle_cost (s : state) (b : N) :
  (length (concat (map encode_point (handle s b).1))
   + (if (bytes_needed (handle s b).2 =? 0)%N then 0 else 3)
   <= 3 + (if (bytes_needed s =? 0)%N then 0 else 3))%nat.
Proof.
  unfold handle. pose proof (lead_cost b) as Hlead.
  destruct (bytes_needed s =? 0); [lia |].
  destruct ((lower s <=? b) && (b <=? upper s)).
  - cbv zeta. destruct (bytes_needed s =? 1); cbn [fst snd bytes_needed].
    + cbn [map concat]. rewrite app_nil_r.
      match goal with
      | |- context [encode_point ?c] => pose proof (encode_point_length c)
      end.
      change (bytes_needed start =? 0) with true. cbv iota. lia.
    + cbn [map concat length]. destruct (bytes_needed s - 1 =? 0); lia.
  - destruct (lead b) as [out s']. cbn [fst snd] in *.
    change (replacement :: out) with ([replacement] ++ out)%list.
    rewrite encoded_length_app, encoded_length_replacement. lia.
Qed.

Lemma process_cost (bs : list N) : ∀ s,
  (length (concat (map encode_point (process s bs)))
   <= 3 * length bs + (if (bytes_needed s =? 0)%N then 0 else 3))%nat.
Proof.
  induction bs as [| b bs IH]; intros s.
  - cbn [process]. destruct (bytes_needed s =? 0); cbn; lia.
  - rewrite process_cons, encoded_length_app.
    pose proof (handle_cost s b) as Hstep. specialize (IH (handle s b).2).
    cbn [length]. lia.
Qed.

Lemma strip_bom_length (bs : list N) : (length (strip_bom bs) <= length bs)%nat.
Proof.
  unfold strip_bom. destruct bs as [| b0 [| b1 [| b2 rest]]]; try lia.
  destruct (_ && _); cbn [length]; lia.
Qed.

(** Reading bytes as text and encoding the text again gives at most three
    bytes for each byte read. *)
Lemma reencoded_length (bs : list byte) :
  (length (encode (decode bs)) <= 3 * length bs)%nat.
Proof.
  unfold encode, decode. rewrite length_map.
  pose proof (process_cost (strip_bom (map Byte.to_N bs)) start) as Hcost.
  pose proof (strip_bom_length (map Byte.to_N bs)) as Hstrip.
  rewrite length_map in Hstrip. change (bytes_needed start =? 0) with true in Hcost.
  cbv iota in Hcost. lia.
Qed.

End Utf8Size.

(** X12. The body of the outbound POST is at most three times as long as
    the inbound body, and the body of a response a handler returns at most
    three times as long as the upstream body. *)
Theorem forwarded_body_size :
  ∀ (handler : Handler) sc req ctx (net : Network),
    (∀ rq b, rq ∈ (Async.run (POST sc req ctx) net).1 →
             request_body rq = Some b →
             (length b <= 3 * length (inbound_body req))%nat)
    ∧ (∀ r resp,
         handler = GET ∨ handler = POST →
         net <$> (Async.run (handler sc req ctx) net).1 = [inr r] →
         (Async.run (handler sc req ctx) net).2 = inr resp →
         (length (body_bytes resp) <= 3 * length (body_bytes r))%nat).
Proof.
  intros handler sc req ctx net. split.
  - intros rq b. rewrite POST_run. cbn [fst].
    intros ->%list_elem_of_singleton [= <-].
    apply Utf8Size.reencoded_length.
  - intros r resp Hh Hnet Hres.
    rewrite (handler_returned handler sc req ctx net Hh r Hnet resp Hres).
    apply Utf8Size.reencoded_length.
Qed.

Lemma forwarded_body_size_witness :
  (length [xef; xbf; xbd]%byte <= 3 * length [xff]%byte)%nat.
Proof.
  apply (proj1 (forwarded_body_size POST (evaluate ∅)
                  {| nextUrl := {| search := "" |};
                     inbound_headers := []; inbound_body := [xff] |}
                  {| params := {| path := ["upload"] |} |}
                  (λ _, inr {| status := 200; headers := []; body_bytes := [] |}))
           {| url := "http://localhost:8000/upload"; method := "POST";
              request_headers := [("Content-Type", "application/json")];
              request_body := Some [xef; xbf; xbd] |}
           [xef; xbf; xbd]%byte).
  - rewrite POST_run. apply list_elem_of_here.
  - reflexivity.
Defined.

(** * Properties of the pages *)

(** ** The demo chat *)

Module DemoChatFacts.
Import Page DemoChat.

Ltac page_unfold :=
  unfold sendMessage, setMessages, setInput, setLoading, setSessionId,
         bind, catch, finally, fetch, lift, set, pure, throw.

Ltac page_cases :=
  repeat match goal with
  | |- context [match ?b ?log with inl _ => _ | inr _ => _ end] =>
      destruct (b log) as [? | ?] eqn:?
  | |- context [if ok ?r then _ else _] => destruct (ok r) eqn:?
  | |- context [match json ?r with inl _ => _ | inr _ => _ end] =>
      destruct (json r) as [? | ?] eqn:?
  | |- context [match property ?v ?n with inl _ => _ | inr _ => _ end] =>
      destruct (property v n) as [? | ?] eqn:?
  end; cbn [messages input loading sessionId failed fst snd].

End DemoChatFacts.

Import Page.

Lemma sendMessage_guarded :
  ∀ trim JSON_stringify (b : Browser) (s : DemoChat.State) (log : list Call),
    trim (DemoChat.input s) = "" ∨ DemoChat.loading s = true →
    DemoChat.sendMessage trim JSON_stringify s b s log = (s, log, inr tt).
Proof.
  intros trim str b s log Hguard. unfold DemoChat.sendMessage.
  destruct Hguard as [-> | ->]; [reflexivity |].
  rewrite orb_true_r. reflexivity.
Qed.

(** X13. A send with an input that is blank once trimmed, or while a
    request is in flight, does nothing: no call of [fetch], no change of
    state. *)
Theorem send_ignores_blank_or_busy :
  ∀ trim JSON_stringify (b : Browser) (s : DemoChat.State) (log : list Call),
    trim (DemoChat.input s) = "" ∨ DemoChat.loading s = true →
    DemoChat.sendMessage trim JSON_stringify s b s log = (s, log, inr tt).
Proof. exact sendMessage_guarded. Qed.

Lemma send_ignores_blank_or_busy_witness :
  DemoChat.sendMessage (λ v, v) (λ _, "{}")
    {| DemoChat.messages := []; DemoChat.input := "";
       DemoChat.loading := false; DemoChat.sessionId := Null;
       DemoChat.failed := None |}
    (λ _, inl (Thrown "TypeError" "Failed to fetch"))
    {| DemoChat.messages := []; DemoChat.input := "";
       DemoChat.loading := false; DemoChat.sessionId := Null;
       DemoChat.failed := None |} [] =
  ({| DemoChat.messages := []; DemoChat.input := "";
      DemoChat.loading := false; DemoChat.sessionId := Null;
      DemoChat.failed := None |}, [], inr tt).
Proof.
  apply (send_ignores_blank_or_busy (λ v, v) (λ _, "{}")).
  left; reflexivity.
Defined.

Lemma sendMessage_unguarded :
  ∀ trim JSON_stringify (b : Browser) (s : DemoChat.State),
    trim (DemoChat.input s) ≠ "" → DemoChat.loading s = false →
    ∃ (s' : DemoChat.State) (calls : list Call) (c : Call),
      DemoChat.sendMessage trim JSON_stringify s b s [] = (s', calls, inr tt)
      ∧ last calls = Some c
      ∧ DemoChat.input s' = "" ∧ DemoChat.loading s' = false
      ∧ ((∃ r data,
            href c = "/api/backend/api/chat"
            ∧ b calls = inr r ∧ ok r = true ∧ json r = inr data
            ∧ match property data "reply" with
              | inr reply =>
                  DemoChat.messages s' =
                    (DemoChat.messages s ++
                     [{| DemoChat.role := DemoChat.user;
                         DemoChat.content := Str (trim (DemoChat.input s)) |};
                      {| DemoChat.role := DemoChat.assistant;
                         DemoChat.content := reply |}])%list
                  ∧ DemoChat.failed s' = DemoChat.failed s
              | inl e =>
                  DemoChat.messages s' =
                    (DemoChat.messages s ++
                     [{| DemoChat.role := DemoChat.user;
                         DemoChat.content := Str (trim (DemoChat.input s)) |}])%list
                  ∧ DemoChat.failed s' = Some e
              end)
         ∨ (¬ (∃ r data,
                 href c = "/api/backend/api/chat"
                 ∧ b calls = inr r ∧ ok r = true ∧ json r = inr data)
            ∧ DemoChat.messages s' =
                (DemoChat.messages s ++
                 [{| DemoChat.role := DemoChat.user;
                     DemoChat.content := Str (trim (DemoChat.input s)) |};
                  DemoChat.apology])%list
            ∧ DemoChat.failed s' = DemoChat.failed s)).
Proof.
  intros trim str b s Htrim Hload. unfold DemoChat.sendMessage.
  rewrite Hload, orb_false_r.
  destruct (String.eqb_spec (trim (DemoChat.input s)) "") as [? | _];
    [contradiction |].
  DemoChatFacts.page_unfold.
  cbn [DemoChat.messages DemoChat.input DemoChat.loading DemoChat.sessionId
       DemoChat.failed fst snd].
  destruct (truthy (DemoChat.sessionId s)); cbn [negb app];
    DemoChatFacts.page_cases;
    cbn [DemoChat.messages DemoChat.input DemoChat.loading DemoChat.sessionId
         DemoChat.failed fst snd];
    rewrite <- ?app_assoc; cbn [app] in *;
    eexists _, _, _; (split; [reflexivity |]); (split; [reflexivity |]);
    (split; [reflexivity |]); (split; [reflexivity |]);
    first
      [ right; split;
        [ intros (r' & data' & Hhref & Hb & Hok & Hjson);
          first [discriminate Hhref | congruence]
        | split; reflexivity ]
      | left; eexists _, _;
        (split; [reflexivity |]); (split; [eassumption |]);
        (split; [eassumption |]); (split; [eassumption |]);
        match goal with
        | H : property _ "reply" = _ |- _ => rewrite H
        end; split; reflexivity ].
Qed.



(** An ok chat answer whose JSON is null: the handler resolves, and the
    render that runs the updater throws. *)
Example null_chat_answer_fails_the_render :
  DemoChat.send (λ v, v) (λ _, "{}")
    (λ _, inr {| code := 200; json := inr Null; body_text := inr "null" |})
    {| DemoChat.messages := []; DemoChat.input := "hi";
       DemoChat.loading := false; DemoChat.sessionId := Str "s1";
       DemoChat.failed := None |} =
  ({| DemoChat.messages :=
        [{| DemoChat.role := DemoChat.user; DemoChat.content := Str "hi" |}];
      DemoChat.input := ""; DemoChat.loading := false;
      DemoChat.sessionId := Str "s1";
      DemoChat.failed :=
        Some (Thrown "TypeError"
                "Cannot read properties of null or undefined, reading reply") |},
   [{| href := "/api/backend/api/chat"; verb := "POST";
       call_headers := [("Content-Type", "application/json")];
       payload := Some "{}" |}]).
Proof. reflexivity. Qed.

(** A chat answer that is not ok: the apology. *)
Example failed_chat_answer_gets_the_apology :
  DemoChat.messages
    (DemoChat.send (λ v, v) (λ _, "{}")
       (λ _, inr {| code := 500; json := inr (Obj [("reply", Str "Hello")]);
                    body_text := inr "" |})
       {| DemoChat.messages := []; DemoChat.input := "hi";
          DemoChat.loading := false; DemoChat.sessionId := Str "s1";
          DemoChat.failed := None |}).1 =
  [{| DemoChat.role := DemoChat.user; DemoChat.content := Str "hi" |};
   DemoChat.apology].
Proof. reflexivity. Qed.

Lemma property_throws (data : Value) (name : string) (e : Exception) :
  property data name = inl e → data = Null ∨ data = Undefined.
Proof. destruct data; cbn; intros H; first [discriminate H | auto]. Qed.

(** One turn of a conversation, on a component that has not failed and is
    not loading. *)
Lemma turn_keeps_shape trim JSON_stringify (v : string) (b : Browser)
    (s : DemoChat.State) :
  DemoChat.loading s = false → DemoChat.failed s = None →
  (trim v = "" →
   (DemoChat.send trim JSON_stringify b (DemoChat.typed v s)).1 =
     DemoChat.typed v s)
  ∧ (trim v ≠ "" →
     (DemoChat.failed
        (DemoChat.send trim JSON_stringify b (DemoChat.typed v s)).1 = None
      → DemoChat.loading
          (DemoChat.send trim JSON_stringify b (DemoChat.typed v s)).1 = false
        ∧ DemoChat.role <$>
            DemoChat.messages
              (DemoChat.send trim JSON_stringify b (DemoChat.typed v s)).1 =
          ((DemoChat.role <$> DemoChat.messages s)
           ++ [DemoChat.user; DemoChat.assistant])%list)
     ∧ ((∀ log r, b log = inr r → ok r = true →
                  json r ≠ inr Null ∧ json r ≠ inr Undefined) →
        DemoChat.failed
          (DemoChat.send trim JSON_stringify b (DemoChat.typed v s)).1 = None)).
Proof.
  intros Hload Hfailed. unfold DemoChat.send. split.
  - intros Hblank. rewrite sendMessage_guarded by (left; exact Hblank).
    reflexivity.
  - intros Hfull.
    destruct (sendMessage_unguarded trim JSON_stringify b (DemoChat.typed v s)
                Hfull Hload)
      as (s' & calls & c & -> & _ & _ & Hload' & Hcases).
    cbn [fst DemoChat.typed DemoChat.messages DemoChat.failed] in *.
    destruct Hcases as [(r & data & _ & Hb & Hok & Hjson & Hreply)
                       | (_ & Hmessages & Hfailed')].
    + destruct (property data "reply") as [e | reply] eqn:Hproperty.
      * destruct Hreply as [_ Hthrown]. split.
        -- rewrite Hthrown. discriminate.
        -- intros Hserver. destruct (Hserver calls r Hb Hok) as [Hnull Hundef].
           destruct (property_throws _ _ _ Hproperty) as [-> | ->]; contradiction.
      * destruct Hreply as [Hmessages Hfailed']. split.
        -- intros _. split; [exact Hload' |].
           rewrite Hmessages, fmap_app. reflexivity.
        -- intros _. rewrite Hfailed'. exact Hfailed.
    + split.
      * intros _. split; [exact Hload' |].
        rewrite Hmessages, fmap_app. reflexivity.
      * intros _. rewrite Hfailed'. exact Hfailed.
Qed.

Lemma join_replicate_snoc {A} (p : list A) (k : nat) :
  mjoin (replicate (S k) p) = (mjoin (replicate k p) ++ p)%list.
Proof.
  induction k as [| k IH].
  - cbn. rewrite app_nil_r. reflexivity.
  - change (mjoin (replicate (S (S k)) p))
      with (p ++ mjoin (replicate (S k) p))%list.
    rewrite IH at 1. rewrite app_assoc. reflexivity.
Qed.

Lemma converse_failed trim JSON_stringify (turns : list (string * Browser))
    (s : DemoChat.State) (e : Exception) :
  DemoChat.failed s = Some e →
  DemoChat.converse trim JSON_stringify turns s = s.
Proof.
  intros Hfailed. destruct turns as [| [v b] turns]; [reflexivity |].
  cbn [DemoChat.converse]. rewrite Hfailed. reflexivity.
Qed.



(** X16. The chat request carries the session of the render the handler
    belongs to: whatever the start call answered, its [session_id] is the
    [sessionId] the component had when the send began. *)
Theorem chat_request_carries_the_session_of_the_render :
  ∀ trim JSON_stringify (b : Browser) (s : DemoChat.State) (c : Call),
    c ∈ (DemoChat.send trim JSON_stringify b s).2 →
    href c = "/api/backend/api/chat" →
    payload c =
      Some (JSON_stringify
              (Obj [("text", Str (trim (DemoChat.input s)));
                    ("session_id", DemoChat.sessionId s)])).
Proof.
  intros trim str b s c. unfold DemoChat.send, DemoChat.sendMessage.
  destruct (_ || _).
  { cbn. intros Hc. apply elem_of_nil in Hc. contradiction. }
  DemoChatFacts.page_unfold.
  cbn [DemoChat.messages DemoChat.input DemoChat.loading DemoChat.sessionId fst snd].
  destruct (truthy (DemoChat.sessionId s)); cbn [negb]; DemoChatFacts.page_cases;
    cbn [app]; intros Hc Hhref;
    repeat (apply elem_of_cons in Hc as [-> | Hc]);
    try (apply elem_of_nil in Hc; contradiction);
    first [reflexivity | discriminate Hhref].
Qed.

Lemma chat_request_carries_the_session_of_the_render_witness :
  payload
    {| href := "/api/backend/api/chat"; verb := "POST";
       call_headers := [("Content-Type", "application/json")];
       payload := Some "{}" |} = Some "{}".
Proof.
  apply (chat_request_carries_the_session_of_the_render (λ v, v) (λ _, "{}")
           (λ _, inl (Thrown "TypeError" "Failed to fetch"))
           {| DemoChat.messages := []; DemoChat.input := "hi";
              DemoChat.loading := false; DemoChat.sessionId := Str "s1";
              DemoChat.failed := None |}).
  - apply list_elem_of_here.
  - reflexivity.
Defined.

(** X17. The first message goes without the session it starts: when the
    component has no session and the start call answers ok with a
    [session_id], that value becomes the [sessionId] of the component, but
    the chat request of the same send still carries the old one. *)
Theorem first_message_goes_without_the_new_session :
  ∀ trim JSON_stringify (b : Browser) (s : DemoChat.State)
    (r : Reply) (data sid : Value),
    trim (DemoChat.input s) ≠ "" → DemoChat.loading s = false →
    truthy (DemoChat.sessionId s) = false →
    b [{| href := "/api/backend/api/start"; verb := "POST";
          call_headers := [("Content-Type", "application/json")];
          payload := Some (JSON_stringify (Obj [("name", Str "Demo User")])) |}] =
      inr r →
    ok r = true → json r = inr data → property data "session_id" = inr sid →
    (DemoChat.send trim JSON_stringify b s).2 =
      [{| href := "/api/backend/api/start"; verb := "POST";
          call_headers := [("Content-Type", "application/json")];
          payload := Some (JSON_stringify (Obj [("name", Str "Demo User")])) |};
       {| href := "/api/backend/api/chat"; verb := "POST";
          call_headers := [("Content-Type", "application/json")];
          payload :=
            Some (JSON_stringify
                    (Obj [("text", Str (trim (DemoChat.input s)));
                          ("session_id", DemoChat.sessionId s)])) |}]
    ∧ DemoChat.sessionId (DemoChat.send trim JSON_stringify b s).1 = sid.
Proof.
  intros trim str b s r data sid Htrim Hload Hnone Hstart Hok Hjson Hsid.
  unfold DemoChat.send, DemoChat.sendMessage. rewrite Hload, orb_false_r.
  destruct (String.eqb_spec (trim (DemoChat.input s)) "") as [? | _];
    [contradiction |].
  DemoChatFacts.page_unfold.
  cbn [DemoChat.messages DemoChat.input DemoChat.loading DemoChat.sessionId fst snd].
  rewrite Hnone. cbn [negb app]. rewrite Hstart, Hok, Hjson, Hsid.
  cbn [app]. DemoChatFacts.page_cases; split; reflexivity.
Qed.

Lemma first_message_goes_without_the_new_session_witness :
  (DemoChat.send (λ v, v) (λ _, "{}")
     (λ log, match log with
             | [_] => inr {| code := 200;
                             json := inr (Obj [("session_id", Str "abc")]);
                             body_text := inr "" |}
             | _ => inr {| code := 200;
                           json := inr (Obj [("reply", Str "Hello")]);
                           body_text := inr "" |}
             end)
     (DemoChat.typed "hi" DemoChat.initial)).2 =
    [{| href := "/api/backend/api/start"; verb := "POST";
        call_headers := [("Content-Type", "application/json")];
        payload := Some "{}" |};
     {| href := "/api/backend/api/chat"; verb := "POST";
        call_headers := [("Content-Type", "application/json")];
        payload := Some "{}" |}]
  ∧ DemoChat.sessionId
      (DemoChat.send (λ v, v) (λ _, "{}")
         (λ log, match log with
                 | [_] => inr {| code := 200;
                                 json := inr (Obj [("session_id", Str "abc")]);
                                 body_text := inr "" |}
                 | _ => inr {| code := 200;
                               json := inr (Obj [("reply", Str "Hello")]);
                               body_text := inr "" |}
                 end)
         (DemoChat.typed "hi" DemoChat.initial)).1 = Str "abc".
Proof.
  apply (first_message_goes_without_the_new_session (λ v, v) (λ _, "{}")
           (λ log, match log with
                   | [_] => inr {| code := 200;
                                   json := inr (Obj [("session_id", Str "abc")]);
                                   body_text := inr "" |}
                   | _ => inr {| code := 200;
                                 json := inr (Obj [("reply", Str "Hello")]);
                                 body_text := inr "" |}
                   end)
           (DemoChat.typed "hi" DemoChat.initial)
           {| code := 200;
              json := inr (Obj [("session_id", Str "abc")]);
              body_text := inr "" |}
           (Obj [("session_id", Str "abc")]) (Str "abc"));
    first [reflexivity | discriminate].
Defined.

Lemma send_keeps_session trim JSON_stringify (b : Browser) (s : DemoChat.State) :
  truthy (DemoChat.sessionId s) = true →
  DemoChat.sessionId (DemoChat.send trim JSON_stringify b s).1 = DemoChat.sessionId s
  ∧ ∀ c, c ∈ (DemoChat.send trim JSON_stringify b s).2 →
         href c = "/api/backend/api/chat".
Proof.
  intros Hsession. unfold DemoChat.send, DemoChat.sendMessage.
  destruct (_ || _).
  { cbn. split; [reflexivity |]. intros c Hc. apply elem_of_nil in Hc. contradiction. }
  DemoChatFacts.page_unfold.
  cbn [DemoChat.messages DemoChat.input DemoChat.loading DemoChat.sessionId fst snd].
  rewrite Hsession. cbn [negb app]. DemoChatFacts.page_cases;
    (split; [reflexivity |]); intros c Hc;
    apply list_elem_of_singleton in Hc as ->; reflexivity.
Qed.

(** X18. A session, once the component has one, is kept: a send makes no
    start call, only the chat call, and over any further conversation the
    [sessionId] stays what it is. *)
Theorem established_session_is_kept :
  ∀ trim JSON_stringify (turns : list (string * Browser)) (s : DemoChat.State),
    truthy (DemoChat.sessionId s) = true →
    DemoChat.sessionId (DemoChat.converse trim JSON_stringify turns s) =
      DemoChat.sessionId s
    ∧ ∀ (b : Browser) c,
        c ∈ (DemoChat.send trim JSON_stringify b s).2 →
        href c = "/api/backend/api/chat".
Proof.
  intros trim str turns s Hsession. split.
  - revert s Hsession. induction turns as [| [v b] turns IH]; intros s Hsession;
      [reflexivity |].
    cbn [DemoChat.converse]. destruct (DemoChat.failed s); [reflexivity |].
    destruct (send_keeps_session trim str b (DemoChat.typed v s) Hsession) as [Hkeep _].
    rewrite IH; [exact Hkeep |]. rewrite Hkeep. exact Hsession.
  - intros b. apply (send_keeps_session trim str b s Hsession).
Qed.

Lemma established_session_is_kept_witness :
  DemoChat.sessionId
    (DemoChat.converse (λ v, v) (λ _, "{}")
       [("hi", λ _, inl (Thrown "TypeError" "Failed to fetch"));
        ("again", λ _, inr {| code := 200;
                              json := inr (Obj [("reply", Str "Hello")]);
                              body_text := inr "" |})]
       {| DemoChat.messages := []; DemoChat.input := "";
          DemoChat.loading := false; DemoChat.sessionId := Str "abc";
          DemoChat.failed := None |}) =
  Str "abc".
Proof.
  apply (proj1 (established_session_is_kept (λ v, v) (λ _, "{}")
                  [("hi", λ _, inl (Thrown "TypeError" "Failed to fetch"));
                   ("again", λ _, inr {| code := 200;
                                         json := inr (Obj [("reply", Str "Hello")]);
                                         body_text := inr "" |})]
                  {| DemoChat.messages := []; DemoChat.input := "";
                     DemoChat.loading := false; DemoChat.sessionId := Str "abc";
                     DemoChat.failed := None |}
                  eq_refl)).
Defined.

(** ** The authentication providers *)

Module AuthFacts.
Import Auth.

Ltac auth_unfold :=
  unfold mount, mount_fixed, login, login_fixed, logout, login_call, stringified,
         setUser, setToken, setIsLoading, setItem, removeItem, router_push,
         getItem, mounting,
         bind, catch, finally, fetch, lift, set, pure, throw.

Ltac auth_cases :=
  repeat match goal with
  | |- context [match ?b ?log with inl _ => _ | inr _ => _ end] =>
      destruct (b log) as [? | ?] eqn:?
  | |- context [if ok ?r then _ else _] => destruct (ok r) eqn:?
  | |- context [match json ?r with inl _ => _ | inr _ => _ end] =>
      destruct (json r) as [? | ?] eqn:?
  | |- context [match body_text ?r with inl _ => _ | inr _ => _ end] =>
      destruct (body_text r) as [? | ?] eqn:?
  | |- context [match property ?v ?n with inl _ => _ | inr _ => _ end] =>
      destruct (property v n) as [? | ?] eqn:?
  | |- context [if truthy ?v then _ else _] => destruct (truthy v) eqn:?
  end; cbn [user token isLoading localStorage pushed fst snd].

Lemma state_eta (s : State) :
  {| user := user s; token := token s; isLoading := isLoading s;
     localStorage := localStorage s; pushed := pushed s |} = s.
Proof. destruct s; reflexivity. Qed.

End AuthFacts.

(** X19. Logging out survives a reload: [logout] calls no [fetch], sets
    token and user to [null], removes the two entries from [localStorage]
    and no other, and pushes /login; a provider of either kind that mounts
    on the storage left behind stays logged out. *)
Theorem logout_survives_reload :
  ∀ JSON_parse (b b' : Browser) (s : Auth.State) (log : list Call) (loading : bool),
    (Auth.logout b s log).2 = inr tt
    ∧ (Auth.logout b s log).1.2 = log
    ∧ Auth.token (Auth.logout b s log).1.1 = Null
    ∧ Auth.user (Auth.logout b s log).1.1 = Null
    ∧ Auth.pushed (Auth.logout b s log).1.1 = (Auth.pushed s ++ ["/login"])%list
    ∧ (∀ key, Auth.localStorage (Auth.logout b s log).1.1 !! key =
              if decide (key = "auth_token" ∨ key = "auth_user") then None
              else Auth.localStorage s !! key)
    ∧ (Auth.mount JSON_parse b'
         (Auth.mounting (Auth.localStorage (Auth.logout b s log).1.1) loading) []).1.1 =
        Auth.mounting (Auth.localStorage (Auth.logout b s log).1.1) false
    ∧ (Auth.mount_fixed JSON_parse b'
         (Auth.mounting (Auth.localStorage (Auth.logout b s log).1.1) loading) []).1.1 =
        Auth.mounting (Auth.localStorage (Auth.logout b s log).1.1) false.
Proof.
  intros parse b b' s log loading.
  repeat split.
  - intros key. AuthFacts.auth_unfold. cbn [Auth.localStorage fst snd].
    destruct (decide (key = "auth_token" ∨ key = "auth_user")) as [[-> | ->] | Hne].
    + rewrite lookup_delete_ne by discriminate. apply lookup_delete_eq.
    + apply lookup_delete_eq.
    + rewrite !lookup_delete_ne; [reflexivity | |]; intros <-; apply Hne; auto.
  - AuthFacts.auth_unfold. cbn [Auth.localStorage fst snd].
    rewrite lookup_delete_ne by discriminate. rewrite lookup_delete_eq.
    reflexivity.
  - AuthFacts.auth_unfold. cbn [Auth.localStorage fst snd].
    rewrite lookup_delete_ne by discriminate. rewrite lookup_delete_eq.
    reflexivity.
Qed.

(** X20. A login that fails changes nothing: when the call is rejected or
    the answer is not ok, [login] of either provider returns false, having
    made its one call, and leaves state and storage as they were. *)
Theorem failed_login_changes_nothing :
  ∀ JSON_stringify String_of (b : Browser) (s : Auth.State) email password,
    (∀ r, b [Auth.login_call JSON_stringify email password] = inr r →
          ok r = false) →
    Auth.login JSON_stringify String_of email password b s [] =
      (s, [Auth.login_call JSON_stringify email password], inr false)
    ∧ Auth.login_fixed JSON_stringify String_of email password b s [] =
        (s, [Auth.login_call JSON_stringify email password], inr false).
Proof.
  intros str sof b s email password Hfail.
  unfold Auth.login, Auth.login_fixed, Page.catch, Page.bind, Page.fetch.
  cbn [app].
  destruct (b [Auth.login_call str email password]) as [e | r] eqn:Hb.
  - split; reflexivity.
  - rewrite (Hfail r eq_refl). unfold Page.lift, Page.pure.
    destruct (body_text r); split; reflexivity.
Qed.

Lemma failed_login_changes_nothing_witness :
  Auth.login (λ _, Some "{}") (λ _, "undefined") "a@b.c" "secret"
    (λ _, inr {| code := 401; json := inr (Obj [("detail", Str "Invalid")]);
                 body_text := inr "Invalid" |})
    (Auth.mounting ∅ false) [] =
  (Auth.mounting ∅ false,
   [Auth.login_call (λ _, Some "{}") "a@b.c" "secret"], inr false).
Proof.
  refine (proj1 (failed_login_changes_nothing (λ _, Some "{}") (λ _, "undefined")
                   (λ _, inr {| code := 401;
                                json := inr (Obj [("detail", Str "Invalid")]);
                                body_text := inr "Invalid" |})
                   (Auth.mounting ∅ false) "a@b.c" "secret" _)).
  intros r [= <-]. reflexivity.
Defined.

(** X21. [login] of [AuthProviderFixed] establishes complete sessions only:
    it never rejects, and either it returns true, with a truthy token and a
    truthy user in the state and both of them stored, or it returns false
    and leaves state and storage as they were. *)
Theorem login_fixed_stores_complete_sessions_only :
  ∀ JSON_stringify String_of (b : Browser) (s : Auth.State) email password,
    ((Auth.login_fixed JSON_stringify String_of email password b s []).2 = inr true
     ∧ truthy (Auth.token
                 (Auth.login_fixed JSON_stringify String_of email password b s []).1.1)
       = true
     ∧ truthy (Auth.user
                 (Auth.login_fixed JSON_stringify String_of email password b s []).1.1)
       = true
     ∧ Auth.localStorage
         (Auth.login_fixed JSON_stringify String_of email password b s []).1.1
         !! "auth_token" =
       Some (String_of
               (Auth.token
                  (Auth.login_fixed JSON_stringify String_of email password b s []).1.1))
     ∧ Auth.localStorage
         (Auth.login_fixed JSON_stringify String_of email password b s []).1.1
         !! "auth_user" =
       Some (Auth.stringified JSON_stringify String_of
               (Auth.user
                  (Auth.login_fixed JSON_stringify String_of email password b s []).1.1)))
    ∨ ((Auth.login_fixed JSON_stringify String_of email password b s []).2 = inr false
       ∧ (Auth.login_fixed JSON_stringify String_of email password b s []).1.1 = s).
Proof.
  intros str sof b s email password.
  unfold Auth.login_fixed.
  unfold Auth.setUser, Auth.setToken, Auth.setItem,
         Page.bind, Page.catch, Page.fetch, Page.lift, Page.set, Page.pure.
  cbn [app]. AuthFacts.auth_cases;
    try (right; split; reflexivity).
  all: left; cbn [Auth.user Auth.token Auth.localStorage fst snd].
  all: repeat split; try assumption.
  all: first [ apply lookup_insert_eq
             | rewrite lookup_insert_ne by discriminate; apply lookup_insert_eq ].
Qed.

Lemma login_run_object :
  ∀ JSON_stringify String_of (b : Browser) (s : Auth.State) email password
    (r : Reply) (fields : list (string * Value)),
    b [Auth.login_call JSON_stringify email password] = inr r →
    ok r = true → json r = inr (Obj fields) →
    Auth.login JSON_stringify String_of email password b s [] =
      ({| Auth.user := field "user" fields;
          Auth.token := field "token" fields;
          Auth.isLoading := Auth.isLoading s;
          Auth.localStorage :=
            <["auth_user" := Auth.stringified JSON_stringify String_of
                               (field "user" fields)]>
              (<["auth_token" := String_of (field "token" fields)]>
                 (Auth.localStorage s));
          Auth.pushed := Auth.pushed s |},
       [Auth.login_call JSON_stringify email password], inr true).
Proof.
  intros str sof b s email password r fields Hb Hok Hjson.
  unfold Auth.login.
  unfold Auth.setUser, Auth.setToken, Auth.setItem,
         Page.bind, Page.catch, Page.fetch, Page.lift, Page.set, Page.pure.
  cbn [app]. rewrite Hb, Hok, Hjson. reflexivity.
Qed.

(** X22. [login] of [AuthProvider] checks nothing: any ok answer whose JSON
    is an object logs in, whatever the object holds.  A missing [token] or
    [user] makes the state [undefined] and is stored as text all the same. *)
Theorem login_takes_any_object :
  ∀ JSON_stringify String_of (b : Browser) (s : Auth.State) email password
    (r : Reply) (fields : list (string * Value)),
    b [Auth.login_call JSON_stringify email password] = inr r →
    ok r = true → json r = inr (Obj fields) →
    Auth.login JSON_stringify String_of email password b s [] =
      ({| Auth.user := field "user" fields;
          Auth.token := field "token" fields;
          Auth.isLoading := Auth.isLoading s;
          Auth.localStorage :=
            <["auth_user" := Auth.stringified JSON_stringify String_of
                               (field "user" fields)]>
              (<["auth_token" := String_of (field "token" fields)]>
                 (Auth.localStorage s));
          Auth.pushed := Auth.pushed s |},
       [Auth.login_call JSON_stringify email password], inr true).
Proof. exact login_run_object. Qed.

Lemma login_takes_any_object_witness :
  Auth.login (λ _, None) (λ _, "undefined") "a@b.c" "secret"
    (λ _, inr {| code := 200; json := inr (Obj []); body_text := inr "{}" |})
    (Auth.mounting ∅ false) [] =
  ({| Auth.user := Undefined;
      Auth.token := Undefined;
      Auth.isLoading := false;
      Auth.localStorage :=
        <["auth_user" := "undefined"]> (<["auth_token" := "undefined"]> ∅);
      Auth.pushed := [] |},
   [Auth.login_call (λ _, None) "a@b.c" "secret"], inr true).
Proof.
  apply (login_takes_any_object (λ _, None) (λ _, "undefined")
           (λ _, inr {| code := 200; json := inr (Obj []); body_text := inr "{}" |})
           (Auth.mounting ∅ false) "a@b.c" "secret"
           {| code := 200; json := inr (Obj []); body_text := inr "{}" |} []);
    reflexivity.
Defined.

Lemma present_some (v : string) : v ≠ "" → Auth.present (Some v) = true.
Proof.
  intros Hv. unfold Auth.present.
  destruct (String.eqb_spec v ""); [contradiction | reflexivity].
Qed.

(** X23. A login is restored by a reload: after [login] has taken an ok
    answer with a string token that is not empty, a provider of either kind
    that mounts on the storage left behind has that token and the user that
    [JSON.parse] reads back, provided [JSON.parse] reads back what
    [JSON.stringify] wrote for the user. *)
Theorem login_then_reload_restores_session :
  ∀ JSON_parse JSON_stringify String_of (b b' : Browser) (s : Auth.State)
    email password (r : Reply) (fields : list (string * Value))
    (t su : string) (loading : bool),
    b [Auth.login_call JSON_stringify email password] = inr r →
    ok r = true → json r = inr (Obj fields) →
    field "token" fields = Str t → t ≠ "" → String_of (Str t) = t →
    JSON_stringify (field "user" fields) = Some su → su ≠ "" →
    JSON_parse su = inr (field "user" fields) →
    Auth.mount JSON_parse b'
      (Auth.mounting
         (Auth.localStorage
            (Auth.login JSON_stringify String_of email password b s []).1.1)
         loading) [] =
      ({| Auth.user := field "user" fields;
          Auth.token := Str t;
          Auth.isLoading := false;
          Auth.localStorage :=
            Auth.localStorage
              (Auth.login JSON_stringify String_of email password b s []).1.1;
          Auth.pushed := [] |}, [], inr tt)
    ∧ Auth.mount_fixed JSON_parse b'
        (Auth.mounting
           (Auth.localStorage
              (Auth.login JSON_stringify String_of email password b s []).1.1)
           loading) [] =
        ({| Auth.user := field "user" fields;
            Auth.token := Str t;
            Auth.isLoading := false;
            Auth.localStorage :=
              Auth.localStorage
                (Auth.login JSON_stringify String_of email password b s []).1.1;
            Auth.pushed := [] |}, [], inr tt).
Proof.
  intros parse str sof b b' s email password r fields t su loading
         Hb Hok Hjson Htoken Ht Hsof Hstr Hsu Hparse.
  rewrite (login_run_object str sof b s email password r fields Hb Hok Hjson).
  cbn [fst snd Auth.localStorage].
  unfold Auth.stringified. rewrite Hstr, Htoken, Hsof.
  unfold Auth.mount, Auth.mount_fixed, Auth.getItem, Auth.mounting,
         Auth.setUser, Auth.setToken, Auth.setIsLoading,
         Page.bind, Page.catch, Page.lift, Page.set, Page.pure.
  cbn [Auth.localStorage Auth.user Auth.token Auth.isLoading Auth.pushed fst snd].
  rewrite lookup_insert_eq, lookup_insert_ne by discriminate.
  rewrite lookup_insert_eq.
  rewrite !present_some by assumption. cbn [andb from_option id].
  rewrite Hparse. split; reflexivity.
Qed.

Lemma login_then_reload_restores_session_witness :
  Auth.mount (λ _, inr (Obj [("id", Str "7")]))
    (λ _, inr {| code := 500; json := inr Null; body_text := inr "" |})
    (Auth.mounting
       (Auth.localStorage
          (Auth.login (λ _, Some "{}") (λ v, match v with Str x => x | _ => "undefined" end)
             "a@b.c" "secret"
             (λ _, inr {| code := 200;
                          json := inr (Obj [("token", Str "tok");
                                            ("user", Obj [("id", Str "7")])]);
                          body_text := inr "" |})
             (Auth.mounting ∅ false) []).1.1)
       true) [] =
    ({| Auth.user := Obj [("id", Str "7")];
        Auth.token := Str "tok";
        Auth.isLoading := false;
        Auth.localStorage :=
          Auth.localStorage
            (Auth.login (λ _, Some "{}") (λ v, match v with Str x => x | _ => "undefined" end)
               "a@b.c" "secret"
               (λ _, inr {| code := 200;
                            json := inr (Obj [("token", Str "tok");
                                              ("user", Obj [("id", Str "7")])]);
                            body_text := inr "" |})
               (Auth.mounting ∅ false) []).1.1;
        Auth.pushed := [] |}, [], inr tt).
Proof.
  apply (proj1 (login_then_reload_restores_session
                  (λ _, inr (Obj [("id", Str "7")]))
                  (λ _, Some "{}")
                  (λ v, match v with Str x => x | _ => "undefined" end)
                  (λ _, inr {| code := 200;
                               json := inr (Obj [("token", Str "tok");
                                                 ("user", Obj [("id", Str "7")])]);
                               body_text := inr "" |})
                  (λ _, inr {| code := 500; json := inr Null; body_text := inr "" |})
                  (Auth.mounting ∅ false) "a@b.c" "secret"
                  {| code := 200;
                     json := inr (Obj [("token", Str "tok");
                                       ("user", Obj [("id", Str "7")])]);
                     body_text := inr "" |}
                  [("token", Str "tok"); ("user", Obj [("id", Str "7")])]
                  "tok" "{}" true
                  eq_refl eq_refl eq_refl eq_refl
                  ltac:(discriminate) eq_refl eq_refl ltac:(discriminate) eq_refl)).
Defined.

(** X24. A stored user that [JSON.parse] cannot read: [AuthProviderFixed]
    mounts logged out, removes both entries and ends loading, whereas the
    effect of [AuthProvider] throws with the token already set, the user
    still [null] and [isLoading] as it was. *)
Theorem unreadable_stored_user :
  ∀ JSON_parse (b : Browser) (storage : gmap string string)
    (t su : string) (e : Exception) (loading : bool),
    storage !! "auth_token" = Some t → t ≠ "" →
    storage !! "auth_user" = Some su → su ≠ "" →
    JSON_parse su = inl e →
    Auth.mount_fixed JSON_parse b (Auth.mounting storage loading) [] =
      (Auth.mounting (delete "auth_user" (delete "auth_token" storage)) false,
       [], inr tt)
    ∧ Auth.mount JSON_parse b (Auth.mounting storage loading) [] =
        ({| Auth.user := Null; Auth.token := Str t; Auth.isLoading := loading;
            Auth.localStorage := storage; Auth.pushed := [] |}, [], inl e).
Proof.
  intros parse b storage t su e loading Htoken Ht Huser Hsu Hparse.
  unfold Auth.mount, Auth.mount_fixed, Auth.getItem, Auth.mounting,
         Auth.setUser, Auth.setToken, Auth.setIsLoading, Auth.removeItem,
         Page.bind, Page.catch, Page.lift, Page.set, Page.pure.
  cbn [Auth.localStorage Auth.user Auth.token Auth.isLoading Auth.pushed fst snd].
  rewrite Htoken, Huser, !present_some by assumption. cbn [andb from_option id].
  rewrite Hparse. split; reflexivity.
Qed.

Lemma unreadable_stored_user_witness :
  Auth.mount_fixed (λ _, inl (Thrown "SyntaxError" "Unexpected token"))
    (λ _, inl (Thrown "TypeError" "Failed to fetch"))
    (Auth.mounting {["auth_token" := "tok"; "auth_user" := "{"]} true) [] =
  (Auth.mounting
     (delete "auth_user"
        (delete "auth_token" {["auth_token" := "tok"; "auth_user" := "{"]}))
     false, [], inr tt).
Proof.
  refine (proj1 (unreadable_stored_user
                   (λ _, inl (Thrown "SyntaxError" "Unexpected token"))
                   (λ _, inl (Thrown "TypeError" "Failed to fetch"))
                   {["auth_token" := "tok"; "auth_user" := "{"]}
                   "tok" "{" (Thrown "SyntaxError" "Unexpected token") true
                   _ _ _ _ eq_refl)).
  - vm_compute. reflexivity.
  - discriminate.
  - vm_compute. reflexivity.
  - discriminate.
Defined.

(** ** The knowledge page *)

(** X25. [getStatusColor] tells the three statuses it knows apart, by three
    colours, and gives grey for every other string and for no known one:
    the comparison is exact, so a status in other letter case is unknown. *)
Theorem status_colour_is_exact :
  ∀ status : string,
    (Knowledge.getStatusColor status = "#10b981" ↔ status = "completed")
    ∧ (Knowledge.getStatusColor status = "#f59e0b" ↔ status = "processing")
    ∧ (Knowledge.getStatusColor status = "#ef4444" ↔ status = "failed")
    ∧ (Knowledge.getStatusColor status = "#6b7280"
       ↔ status ≠ "completed" ∧ status ≠ "processing" ∧ status ≠ "failed").
Proof.
  intros status. unfold Knowledge.getStatusColor.
  destruct (String.eqb_spec status "completed") as [-> | H1];
    [intuition congruence |].
  destruct (String.eqb_spec status "processing") as [-> | H2];
    [intuition congruence |].
  destruct (String.eqb_spec status "failed") as [-> | H3];
    intuition congruence.
Qed.

Lemma status_colour_is_exact_witness :
  Knowledge.getStatusColor "failed" = "#ef4444"
  ∧ Knowledge.getStatusColor "uploaded" = "#6b7280".
Proof.
  split.
  - apply (proj1 (proj2 (proj2 (status_colour_is_exact "failed")))). reflexivity.
  - apply (proj2 (proj2 (proj2 (status_colour_is_exact "uploaded")))).
    repeat split; discriminate.
Defined.

Example status_colour_other_case :
  Knowledge.getStatusColor "Completed" = "#6b7280".
Proof. reflexivity. Qed.

(** ** The chatbots page *)

Module ChatbotsFacts.
Import Chatbots.

Ltac chatbots_unfold :=
  unfold createChatbot, fetchChatbots,
         setChatbots, setLoading, setShowCreateForm, setNewChatbot,
         bind, catch, finally, fetch, lift, set, pure, throw.

Ltac chatbots_cases :=
  repeat match goal with
  | |- context [match ?b ?log with inl _ => _ | inr _ => _ end] =>
      destruct (b log) as [? | ?] eqn:?
  | |- context [if ok ?r then _ else _] => destruct (ok r) eqn:?
  | |- context [match json ?r with inl _ => _ | inr _ => _ end] =>
      destruct (json r) as [? | ?] eqn:?
  end; cbn [chatbots loading showCreateForm newChatbot fst snd].

End ChatbotsFacts.

(** X26. [fetchChatbots] never rejects and always ends with [loading]
    false.  It makes one call, a GET that carries the token and no body.
    When that call is answered ok with a JSON value, the list becomes that
    value; in every other case the list is kept. *)
Theorem fetchChatbots_settles :
  ∀ String_of token (b : Browser) (s : Chatbots.State) (log : list Call),
    ∃ list,
      Chatbots.fetchChatbots String_of token b s log =
        ({| Chatbots.chatbots := list;
            Chatbots.loading := false;
            Chatbots.showCreateForm := Chatbots.showCreateForm s;
            Chatbots.newChatbot := Chatbots.newChatbot s |},
         (log ++ [{| href := "/api/backend/api/chatbots"; verb := "GET";
                     call_headers :=
                       [("Authorization", "Bearer " +:+ String_of token)];
                     payload := None |}])%list,
         inr tt)
      ∧ (∀ r data,
           b (log ++ [{| href := "/api/backend/api/chatbots"; verb := "GET";
                         call_headers :=
                           [("Authorization", "Bearer " +:+ String_of token)];
                         payload := None |}])%list = inr r →
           ok r = true → json r = inr data →
           list = data)
      ∧ (¬ (∃ r data,
              b (log ++ [{| href := "/api/backend/api/chatbots"; verb := "GET";
                            call_headers :=
                              [("Authorization", "Bearer " +:+ String_of token)];
                            payload := None |}])%list = inr r
              ∧ ok r = true ∧ json r = inr data) →
         list = Chatbots.chatbots s).
Proof.
  intros sof token b s log. ChatbotsFacts.chatbots_unfold.
  ChatbotsFacts.chatbots_cases;
    eexists; (split; [reflexivity |]); split;
    first
      [ intros r' data' Hb Hok Hjson; congruence
      | intros Hnot; first [reflexivity | exfalso; apply Hnot; eauto] ].
Qed.

Lemma fetchChatbots_settles_witness :
  Chatbots.chatbots
    (Chatbots.fetchChatbots (λ _, "tok") (Str "tok")
       (λ _, inr {| code := 200;
                    json := inr (Arr [Obj [("title", Str "Helper")]]);
                    body_text := inr "" |})
       Chatbots.initial []).1.1 = Arr [Obj [("title", Str "Helper")]]
  ∧ Chatbots.chatbots
      (Chatbots.fetchChatbots (λ _, "tok") (Str "tok")
         (λ _, inr {| code := 401;
                      json := inr (Obj [("detail", Str "Not authenticated")]);
                      body_text := inr "" |})
         Chatbots.initial []).1.1 = Arr [].
Proof.
  split.
  - destruct (fetchChatbots_settles (λ _, "tok") (Str "tok")
                (λ _, inr {| code := 200;
                             json := inr (Arr [Obj [("title", Str "Helper")]]);
                             body_text := inr "" |})
                Chatbots.initial []) as (list & Hrun & Hreplaced & _).
    rewrite Hrun. cbn [fst Chatbots.chatbots].
    apply (Hreplaced _ _ eq_refl); reflexivity.
  - destruct (fetchChatbots_settles (λ _, "tok") (Str "tok")
                (λ _, inr {| code := 401;
                             json := inr (Obj [("detail", Str "Not authenticated")]);
                             body_text := inr "" |})
                Chatbots.initial []) as (list & Hrun & _ & Hkept).
    rewrite Hrun. cbn [fst Chatbots.chatbots].
    apply Hkept. intros (r & data & Hb & Hok & _).
    injection Hb as <-. discriminate Hok.
Defined.

(** X27. [createChatbot] never rejects.  When its POST is rejected or is
    answered not ok, that call is the only one and the page is as it was:
    the form stays open with what was typed.  When the POST is answered ok,
    the list is fetched again, and the form is closed and blank whether or
    not that second call succeeds. *)
Theorem createChatbot_resets_form_on_ok_only :
  ∀ JSON_stringify String_of token (b : Browser) (s : Chatbots.State),
    (Chatbots.createChatbot JSON_stringify String_of token s b s []).2 = inr tt
    ∧ ((∀ r, b [{| href := "/api/backend/api/chatbots"; verb := "POST";
                   call_headers :=
                     [("Authorization", "Bearer " +:+ String_of token);
                      ("Content-Type", "application/json")];
                   payload := Some (JSON_stringify
                                      (Chatbots.form_object (Chatbots.newChatbot s))) |}]
               = inr r → ok r = false) →
        (Chatbots.createChatbot JSON_stringify String_of token s b s []).1 =
          (s, [{| href := "/api/backend/api/chatbots"; verb := "POST";
                  call_headers :=
                    [("Authorization", "Bearer " +:+ String_of token);
                     ("Content-Type", "application/json")];
                  payload := Some (JSON_stringify
                                     (Chatbots.form_object (Chatbots.newChatbot s))) |}]))
    ∧ (∀ r, b [{| href := "/api/backend/api/chatbots"; verb := "POST";
                  call_headers :=
                    [("Authorization", "Bearer " +:+ String_of token);
                     ("Content-Type", "application/json")];
                  payload := Some (JSON_stringify
                                     (Chatbots.form_object (Chatbots.newChatbot s))) |}]
              = inr r → ok r = true →
         Chatbots.showCreateForm
           (Chatbots.createChatbot JSON_stringify String_of token s b s []).1.1 = false
         ∧ Chatbots.newChatbot
             (Chatbots.createChatbot JSON_stringify String_of token s b s []).1.1 =
           Chatbots.blank
         ∧ Chatbots.loading
             (Chatbots.createChatbot JSON_stringify String_of token s b s []).1.1 = false
         ∧ verb <$> (Chatbots.createChatbot JSON_stringify String_of token s b s []).1.2 =
             ["POST"; "GET"]).
Proof.
  intros str sof token b s. split; [| split].
  - ChatbotsFacts.chatbots_unfold. cbn [app].
    ChatbotsFacts.chatbots_cases; reflexivity.
  - intros Hfail. ChatbotsFacts.chatbots_unfold. cbn [app].
    destruct (b [_]) as [e | r] eqn:Hb; [reflexivity |].
    rewrite (Hfail r eq_refl). reflexivity.
  - intros r Hb Hok. ChatbotsFacts.chatbots_unfold. cbn [app].
    rewrite Hb, Hok. ChatbotsFacts.chatbots_cases; repeat split.
Qed.

Lemma createChatbot_resets_form_on_ok_only_witness :
  (Chatbots.createChatbot (λ _, "{}") (λ _, "tok") (Str "tok")
     {| Chatbots.chatbots := Arr []; Chatbots.loading := false;
        Chatbots.showCreateForm := true; Chatbots.newChatbot := Chatbots.blank |}
     (λ _, inl (Thrown "TypeError" "Failed to fetch"))
     {| Chatbots.chatbots := Arr []; Chatbots.loading := false;
        Chatbots.showCreateForm := true; Chatbots.newChatbot := Chatbots.blank |}
     []).1 =
  ({| Chatbots.chatbots := Arr []; Chatbots.loading := false;
      Chatbots.showCreateForm := true; Chatbots.newChatbot := Chatbots.blank |},
   [{| href := "/api/backend/api/chatbots"; verb := "POST";
       call_headers := [("Authorization", "Bearer tok");
                        ("Content-Type", "application/json")];
       payload := Some "{}" |}])
  ∧ Chatbots.showCreateForm
      (Chatbots.createChatbot (λ _, "{}") (λ _, "tok") (Str "tok")
         {| Chatbots.chatbots := Arr []; Chatbots.loading := false;
            Chatbots.showCreateForm := true; Chatbots.newChatbot := Chatbots.blank |}
         (λ _, inr {| code := 201; json := inr (Arr []); body_text := inr "" |})
         {| Chatbots.chatbots := Arr []; Chatbots.loading := false;
            Chatbots.showCreateForm := true; Chatbots.newChatbot := Chatbots.blank |}
         []).1.1 = false.
Proof.
  split.
  - refine (proj1 (proj2 (createChatbot_resets_form_on_ok_only
                            (λ _, "{}") (λ _, "tok") (Str "tok")
                            (λ _, inl (Thrown "TypeError" "Failed to fetch"))
                            {| Chatbots.chatbots := Arr []; Chatbots.loading := false;
                               Chatbots.showCreateForm := true;
                               Chatbots.newChatbot := Chatbots.blank |})) _).
    intros r [=].
  - refine (proj1 (proj2 (proj2 (createChatbot_resets_form_on_ok_only
                            (λ _, "{}") (λ _, "tok") (Str "tok")
                            (λ _, inr {| code := 201; json := inr (Arr []);
                                         body_text := inr "" |})
                            {| Chatbots.chatbots := Arr []; Chatbots.loading := false;
                               Chatbots.showCreateForm := true;
                               Chatbots.newChatbot := Chatbots.blank |}))
                     {| code := 201; json := inr (Arr []); body_text := inr "" |}
                     eq_refl eq_refl)).
Defined.

(** ** The login page *)

Module LoginFacts.
Import Login.

Ltac login_unfold :=
  unfold handleSubmit, stringified, setLoading, setError, setItem, router_push,
         bind, catch, finally, fetch, lift, set, pure, throw.

Ltac login_cases :=
  repeat match goal with
  | |- context [match ?b ?log with inl _ => _ | inr _ => _ end] =>
      destruct (b log) as [? | ?] eqn:?
  | |- context [match json ?r with inl _ => _ | inr _ => _ end] =>
      destruct (json r) as [? | ?] eqn:?
  | |- context [if ok ?r then _ else _] => destruct (ok r) eqn:?
  | |- context [match property ?v ?n with inl _ => _ | inr _ => _ end] =>
      destruct (property v n) as [? | ?] eqn:?
  end;
  cbn [email password isLogin name username loading error localStorage pushed
       fst snd].

End LoginFacts.

(** X28. [handleSubmit] never rejects, makes one call, and ends with
    [loading] false.  An ok answer whose JSON is an object stores its
    [token] and [user] and pushes /dashboard; an answer that is not ok and
    whose JSON is an object stores nothing, pushes nothing and shows its
    [detail], or Authentication failed when that is falsy. *)
Theorem handleSubmit_outcome :
  ∀ JSON_stringify String_of (b : Browser) (s : Login.State),
    ((Login.handleSubmit JSON_stringify String_of s b s []).2 = inr tt
     ∧ (Login.handleSubmit JSON_stringify String_of s b s []).1.2 =
         [Login.submit_call JSON_stringify s]
     ∧ Login.loading (Login.handleSubmit JSON_stringify String_of s b s []).1.1 = false)
    ∧ (∀ r fields,
         b [Login.submit_call JSON_stringify s] = inr r →
         json r = inr (Obj fields) → ok r = true →
         Login.localStorage (Login.handleSubmit JSON_stringify String_of s b s []).1.1 =
           <["auth_user" := Login.stringified JSON_stringify String_of
                              (field "user" fields)]>
             (<["auth_token" := String_of (field "token" fields)]>
                (Login.localStorage s))
         ∧ Login.pushed (Login.handleSubmit JSON_stringify String_of s b s []).1.1 =
             (Login.pushed s ++ ["/dashboard"])%list
         ∧ Login.error (Login.handleSubmit JSON_stringify String_of s b s []).1.1 =
             Str "")
    ∧ (∀ r fields,
         b [Login.submit_call JSON_stringify s] = inr r →
         json r = inr (Obj fields) → ok r = false →
         Login.localStorage (Login.handleSubmit JSON_stringify String_of s b s []).1.1 =
           Login.localStorage s
         ∧ Login.pushed (Login.handleSubmit JSON_stringify String_of s b s []).1.1 =
             Login.pushed s
         ∧ Login.error (Login.handleSubmit JSON_stringify String_of s b s []).1.1 =
             Login.or_value (field "detail" fields) (Str "Authentication failed")).
Proof.
  intros str sof b s. split; [| split].
  - LoginFacts.login_unfold. cbn [app Login.localStorage Login.pushed fst snd].
    LoginFacts.login_cases; repeat split.
  - intros r fields Hb Hjson Hok. LoginFacts.login_unfold. cbn [app].
    rewrite Hb, Hjson, Hok. repeat split.
  - intros r fields Hb Hjson Hok. LoginFacts.login_unfold. cbn [app].
    rewrite Hb, Hjson, Hok. repeat split.
Qed.

Lemma handleSubmit_outcome_witness :
  Login.error
    (Login.handleSubmit (λ _, Some "{}") (λ _, "undefined")
       {| Login.email := "a@b.c"; Login.password := "x"; Login.isLogin := true;
          Login.name := ""; Login.username := ""; Login.loading := false;
          Login.error := Str ""; Login.localStorage := ∅; Login.pushed := [] |}
       (λ _, inr {| code := 401;
                    json := inr (Obj [("detail", Str "Invalid credentials")]);
                    body_text := inr "" |})
       {| Login.email := "a@b.c"; Login.password := "x"; Login.isLogin := true;
          Login.name := ""; Login.username := ""; Login.loading := false;
          Login.error := Str ""; Login.localStorage := ∅; Login.pushed := [] |}
       []).1.1 = Str "Invalid credentials".
Proof.
  refine (proj2 (proj2 (proj2 (proj2 (handleSubmit_outcome
            (λ _, Some "{}") (λ _, "undefined")
            (λ _, inr {| code := 401;
                         json := inr (Obj [("detail", Str "Invalid credentials")]);
                         body_text := inr "" |})
            {| Login.email := "a@b.c"; Login.password := "x"; Login.isLogin := true;
               Login.name := ""; Login.username := ""; Login.loading := false;
               Login.error := Str ""; Login.localStorage := ∅; Login.pushed := [] |}))
            {| code := 401;
               json := inr (Obj [("detail", Str "Invalid credentials")]);
               body_text := inr "" |}
            [("detail", Str "Invalid credentials")] eq_refl eq_refl eq_refl))).
Defined.

(** X29. An answer whose body is not JSON is shown as a network error,
    whatever its status, even an ok one: nothing is stored and nothing is
    pushed. *)
Theorem unreadable_answer_is_shown_as_network_error :
  ∀ JSON_stringify String_of (b : Browser) (s : Login.State) (r : Reply) e,
    b [Login.submit_call JSON_stringify s] = inr r →
    json r = inl e →
    Login.handleSubmit JSON_stringify String_of s b s [] =
      ({| Login.email := Login.email s; Login.password := Login.password s;
          Login.isLogin := Login.isLogin s; Login.name := Login.name s;
          Login.username := Login.username s; Login.loading := false;
          Login.error := Str "Network error. Please try again.";
          Login.localStorage := Login.localStorage s;
          Login.pushed := Login.pushed s |},
       [Login.submit_call JSON_stringify s], inr tt).
Proof.
  intros str sof b s r e Hb Hjson. LoginFacts.login_unfold. cbn [app].
  rewrite Hb, Hjson. reflexivity.
Qed.

Lemma unreadable_answer_is_shown_as_network_error_witness :
  Login.handleSubmit (λ _, Some "{}") (λ _, "undefined")
    {| Login.email := "a@b.c"; Login.password := "x"; Login.isLogin := true;
       Login.name := ""; Login.username := ""; Login.loading := false;
       Login.error := Str ""; Login.localStorage := ∅; Login.pushed := [] |}
    (λ _, inr {| code := 200;
                 json := inl (Thrown "SyntaxError" "Unexpected end of JSON input");
                 body_text := inr "" |})
    {| Login.email := "a@b.c"; Login.password := "x"; Login.isLogin := true;
       Login.name := ""; Login.username := ""; Login.loading := false;
       Login.error := Str ""; Login.localStorage := ∅; Login.pushed := [] |} [] =
  ({| Login.email := "a@b.c"; Login.password := "x"; Login.isLogin := true;
      Login.name := ""; Login.username := ""; Login.loading := false;
      Login.error := Str "Network error. Please try again.";
      Login.localStorage := ∅; Login.pushed := [] |},
   [Login.submit_call (λ _, Some "{}")
      {| Login.email := "a@b.c"; Login.password := "x"; Login.isLogin := true;
         Login.name := ""; Login.username := ""; Login.loading := false;
         Login.error := Str ""; Login.localStorage := ∅; Login.pushed := [] |}],
   inr tt).
Proof.
  apply (unreadable_answer_is_shown_as_network_error
           (λ _, Some "{}") (λ _, "undefined")
           (λ _, inr {| code := 200;
                        json := inl (Thrown "SyntaxError" "Unexpected end of JSON input");
                        body_text := inr "" |})
           {| Login.email := "a@b.c"; Login.password := "x"; Login.isLogin := true;
              Login.name := ""; Login.username := ""; Login.loading := false;
              Login.error := Str ""; Login.localStorage := ∅; Login.pushed := [] |}
           {| code := 200;
              json := inl (Thrown "SyntaxError" "Unexpected end of JSON input");
              body_text := inr "" |}
           (Thrown "SyntaxError" "Unexpected end of JSON input") eq_refl eq_refl).
Defined.
